(** * apply-pjl-code: navigation of legal articles by reference ASTs

    A shallow embedding of the TypeScript prototypes of the repository:
    - [src/chat-history/article-navigator.ts], first document: the cheerio
      based [ArticleNavigator] (module [Nav1]);
    - [src/chat-history/article-navigator.ts], second document: the
      prototype with [parseModification], [walkReference], the DOM based
      [ArticleNavigator] and [extractModificationsFromProject]
      (module [Proto]);
    - [src/unnamed/part_000] (guide de demarrage): the [modification]
      parser and the cheerio extractor (module [Guide]);
    - [src/unnamed/part_001] (strategie finale): the first extractor
      sketch (module [Strategie]);
    - [applyModificationAndGenerateDiff] of the prototype (module [Diff])
      and the extractor with article numbers of
      [src/chat-history/prochaines-etapes.md] (module [Etapes]).

    JavaScript strings are sequences of UTF-16 code units; exceptions are
    results of a sum type; the parsers of the tisseuse library, which the
    repository only calls, are Section variables. *)

From Stdlib Require Import List ZArith NArith Lia Bool Ascii String DecimalString.
Import ListNotations.

Set Implicit Arguments.
Set Warnings "-register-all".

(* ================================================================== *)
(** ** JavaScript strings and arrays *)

Module JS.

(** A JavaScript string: its UTF-16 code units. *)
Definition char16 := N.
Definition jsstring := list char16.

(** An ASCII literal of the source as a JavaScript string. *)
Definition lit (s : string) : jsstring :=
  map N_of_ascii (list_ascii_of_string s).

Definition char_eqb (a b : char16) : bool := N.eqb a b.

Fixpoint str_eqb (a b : jsstring) : bool :=
  match a, b with
  | [], [] => true
  | x :: a', y :: b' => char_eqb x y && str_eqb a' b'
  | _, _ => false
  end.

(** [text.startsWith(pattern)] *)
Fixpoint startsWith (text pattern : jsstring) : bool :=
  match pattern, text with
  | [], _ => true
  | p :: pattern', c :: text' => char_eqb c p && startsWith text' pattern'
  | _ :: _, [] => false
  end.

(** The class [\s] of regular expressions, which is also what
    [String.prototype.trim] strips: WhiteSpace and LineTerminator. *)
Definition isWhitespace (c : char16) : bool :=
  ((9 <=? c) && (c <=? 13) || (c =? 32) || (c =? 160) || (c =? 5760)
   || (8192 <=? c) && (c <=? 8202) || (c =? 8232) || (c =? 8233)
   || (c =? 8239) || (c =? 8287) || (c =? 12288) || (c =? 65279))%N.

Fixpoint trimStart (s : jsstring) : jsstring :=
  match s with
  | c :: s' => if isWhitespace c then trimStart s' else s
  | [] => []
  end.

Definition trimEnd (s : jsstring) : jsstring := rev (trimStart (rev s)).

(** [s.trim()] *)
Definition trim (s : jsstring) : jsstring := trimEnd (trimStart s).

(** [array[i]] for an integral index: [None] is [undefined]. *)
Definition index {A} (l : list A) (i : Z) : option A :=
  if (i <? 0)%Z then None else nth_error l (Z.to_nat i).

(** [String(n)] of a non-negative integer array index. *)
Definition String_of_nat (n : nat) : jsstring :=
  lit (NilZero.string_of_uint (Nat.to_uint n)).

(** The character class [[.!?]]. *)
Definition isTerminal (c : char16) : bool :=
  ((c =? 46) || (c =? 33) || (c =? 63))%N.

(** [text.split(/[.!?]\s+/)]: [skipping] is true inside the [\s+] of a
    match, [acc] is the current piece, reversed.  A match starts at a
    terminal character followed by at least one white space and runs
    over all the white space that follows. *)
Fixpoint split_go (skipping : bool) (acc : jsstring) (s : jsstring)
  : list jsstring :=
  match s with
  | [] => [rev acc]
  | c :: rest =>
      if skipping && isWhitespace c then split_go true acc rest
      else if isTerminal c
              && match rest with d :: _ => isWhitespace d | [] => false end
           then rev acc :: split_go true [] rest
           else split_go false (c :: acc) rest
  end.

Definition splitTerminal (text : jsstring) : list jsstring :=
  split_go false [] text.

(** ASCII white space, which separates the tokens of a [class]
    attribute: tab, line feed, form feed, carriage return and space. *)
Definition isAsciiWhitespace (c : char16) : bool :=
  ((c =? 9) || (c =? 10) || (c =? 12) || (c =? 13) || (c =? 32))%N.

(** The tokens of a [class] attribute. *)
Fixpoint tokens_go (acc : jsstring) (s : jsstring) : list jsstring :=
  match s with
  | [] => match acc with [] => [] | _ => [rev acc] end
  | c :: rest =>
      if isAsciiWhitespace c
      then match acc with [] => tokens_go [] rest
                        | _ => rev acc :: tokens_go [] rest end
      else tokens_go (c :: acc) rest
  end.

Definition tokens (s : jsstring) : list jsstring := tokens_go [] s.

Definition isDigit (c : char16) : bool := ((48 <=? c) && (c <=? 57))%N.

Fixpoint takeDigits (s : jsstring) : jsstring :=
  match s with
  | c :: s' => if isDigit c then c :: takeDigits s' else []
  | [] => []
  end.

(** [href.match(/LEGIARTI\d+/)]: the leftmost match, with all its digits. *)
Fixpoint matchLegiarti (s : jsstring) : option jsstring :=
  match s with
  | [] => None
  | _ :: rest =>
      if startsWith s (lit "LEGIARTI")
      then match takeDigits (skipn 8 s) with
           | [] => matchLegiarti rest
           | ds => Some (lit "LEGIARTI" ++ ds)
           end
      else matchLegiarti rest
  end.

(** Results of code that may throw. *)
Inductive result (E A : Type) : Type :=
| Ok (a : A)
| Throw (e : E).
Arguments Ok {E A} a.
Arguments Throw {E A} e.

Definition bind {E A B} (r : result E A) (k : A -> result E B) : result E B :=
  match r with
  | Ok a => k a
  | Throw e => Throw e
  end.

End JS.

Import JS.

Notation "x <- r ;; k" := (JS.bind r (fun x => k))
(at level 61, r at next level, right associativity).

(* ================================================================== *)
(** ** The document tree (what cheerio and the DOM expose) *)

Module Dom.

Inductive node : Type :=
| TextNode (data : jsstring)
| Element (tag : string) (attrs : list (string * jsstring))
          (children : list node).

Definition hasTag (t : string) (n : node) : bool :=
  match n with
  | TextNode _ => false
  | Element tag _ _ => String.eqb tag t
  end.

Definition getAttribute (name : string) (n : node) : option jsstring :=
  match n with
  | TextNode _ => None
  | Element _ attrs _ =>
      match find (fun kv => String.eqb (fst kv) name) attrs with
      | Some kv => Some (snd kv)
      | None => None
      end
  end.

Definition hasClass (cls : jsstring) (n : node) : bool :=
  match getAttribute "class" n with
  | Some v => existsb (str_eqb cls) (tokens v)
  | None => false
  end.

(** The descendants of [n] that satisfy [sel], in document order. *)
Fixpoint descendants (sel : node -> bool) (n : node) : list node :=
  match n with
  | TextNode _ => []
  | Element _ _ children =>
      flat_map (fun c => (if sel c then [c] else []) ++ descendants sel c)
               children
  end.

(** [textContent] of the DOM, [text()] of cheerio on one element. *)
Fixpoint textContent (n : node) : jsstring :=
  match n with
  | TextNode data => data
  | Element _ _ children => flat_map textContent children
  end.

(** Serialisation of a tree without attributes or escaping.  Only used
    to show what [html()] returns on examples. *)
Fixpoint outerHTML (n : node) : jsstring :=
  match n with
  | TextNode data => data
  | Element tag _ children =>
      lit "<" ++ lit tag ++ lit ">" ++ flat_map outerHTML children
      ++ lit "</" ++ lit tag ++ lit ">"
  end.

Definition innerHTML (n : node) : jsstring :=
  match n with
  | TextNode data => data
  | Element _ _ children => flat_map outerHTML children
  end.

(** A cheerio selection: the list of its elements.  [$(undefined)] is the
    empty selection. *)
Definition selection := list node.

Definition wrap (o : option node) : selection :=
  match o with
  | Some n => [n]
  | None => []
  end.

(** [scope.find('p').toArray()] *)
Definition findAll (t : string) (scope : selection) : list node :=
  flat_map (descendants (hasTag t)) scope.

(** [scope.text()] *)
Definition text (scope : selection) : jsstring :=
  flat_map textContent scope.

(** [scope.html()]: the inner HTML of the first element, [null] on the
    empty selection. *)
Definition html (scope : selection) : option jsstring :=
  match scope with
  | [] => None
  | n :: _ => Some (innerHTML n)
  end.

(** A paragraph [<p>s</p>]. *)
Definition p (s : string) : node := Element "p" [] [TextNode (lit s)].

Definition body (children : list node) : node := Element "body" [] children.

End Dom.

Import Dom.

(* ================================================================== *)
(** ** The reference AST of tisseuse, as the prototypes read it *)

Module Ast.

(** The [type] tag of an atomic reference.  [autre] stands for every tag
    that none of the prototypes names. *)
Inductive atomType : Type :=
| texte | article
| item | partie | livre | titre | sous_titre | chapitre | section
| sous_section | paragraphe | sous_paragraphe | sous_sous_paragraphe
| alinea | phrase
| autre (name : jsstring).

(** The fields the prototypes read on an atomic reference. *)
Record atom : Type := mkAtom {
  cid : option jsstring;
  num : option jsstring;
  index : option Z;
  relative : option Z
}.

Inductive actionKind : Type :=
| CREATION | MODIFICATION | SUPPRESSION | CREATION_OU_MODIFICATION.

Record TextAstAction : Type := mkAction {
  action : actionKind;
  originalCitations : list jsstring
}.

Inductive TextAstReference : Type :=
| Atomic (type : atomType) (fields : atom)
| ParentChild (parent child : TextAstReference)           (* 'parent-enfant' *)
| Enumeration (left right : TextAstReference)             (* 'enumeration' *)
| BoundedInterval (first last : TextAstReference)         (* 'bounded-interval' *)
| CountedInterval (first : TextAstReference) (count : Z)  (* 'counted-interval' *)
| ReferenceAndAction (reference : TextAstReference) (act : TextAstAction).
                                                          (* 'reference_et_action' *)

End Ast.

Import Ast.

(* ================================================================== *)
(** ** article-navigator.ts, first document: the cheerio navigator *)

Module Nav1.

Inductive stepType : Type := St_texte | St_article | St_division | St_portion.

Record NavigationStep : Type := mkStep {
  type : stepType;
  cid : option jsstring;
  num : option jsstring;
  divisionType : option atomType;
  portionType : option atomType;
  index : option Z
}.

(** What the thrown [Error] messages interpolate. *)
Inductive error : Type :=
| UnsupportedReferenceType (ref : TextAstReference)
| DivisionNotFound (step : NavigationStep)
| SentenceNotFound (index : Z)
| PortionNotFound (step : NavigationStep).

Definition res := JS.result error.

Definition isDivisionType (t : atomType) : bool :=
  match t with
  | item | partie | livre | titre | sous_titre | chapitre | section
  | sous_section | paragraphe | sous_paragraphe | sous_sous_paragraphe => true
  | _ => false
  end.

(** [referenceToStep] *)
Definition referenceToStep (ref : TextAstReference) : res NavigationStep :=
  match ref with
  | Atomic texte f =>
      Ok (mkStep St_texte (Ast.cid f) None None None None)
  | Atomic article f =>
      Ok (mkStep St_article None (Ast.num f) None None None)
  | Atomic alinea f =>
      Ok (mkStep St_portion None (Ast.num f) None (Some alinea) (Ast.index f))
  | Atomic phrase f =>
      Ok (mkStep St_portion None (Ast.num f) None (Some phrase) (Ast.index f))
  | Atomic t f =>
      if isDivisionType t
      then Ok (mkStep St_division None (Ast.num f) (Some t) None (Ast.index f))
      else Throw (UnsupportedReferenceType ref)
  | _ => Throw (UnsupportedReferenceType ref)
  end.

(** [walkReference]: [path] is the array the source pushes to. *)
Fixpoint walkReference (ref : TextAstReference) (path : list NavigationStep)
  : res (list NavigationStep) :=
  match ref with
  | ParentChild parent child =>
      path1 <- walkReference parent path ;;
      walkReference child path1
  | _ =>
      step <- referenceToStep ref ;;
      Ok (path ++ [step])
  end.

(** [extractNavigationPath] *)
Definition extractNavigationPath (ref : TextAstReference)
  : res (list NavigationStep) :=
  walkReference ref [].

(** [getDivisionPatterns] *)
Definition getDivisionPatterns (num : jsstring) : list jsstring :=
  [ num ++ lit ".-";
    num ++ lit ". -";
    num ++ lit " -";
    num ++ lit ".";
    num ++ [176%N];      (* the degree sign *)
    num ++ lit ")" ].

(** [splitSentences] *)
Definition splitSentences (text : jsstring) : list jsstring :=
  filter (fun s => negb (Nat.eqb (List.length (trim s)) 0)) (splitTerminal text).

(** The test of the loop of [findDivision] on one paragraph. *)
Definition matchesDivision (patterns : list jsstring) (p : node) : bool :=
  let text := trim (textContent p) in
  existsb (fun pattern => startsWith text pattern) patterns.

Definition truthy (s : option jsstring) : bool :=
  match s with
  | Some (_ :: _) => true
  | _ => false
  end.

(** [findDivision] *)
Definition findDivision (scope : selection) (step : NavigationStep)
  : res selection :=
  let paragraphs := findAll "p" scope in
  let byPattern :=
    if truthy (num step)
    then
      let patterns :=
        getDivisionPatterns (match num step with Some n => n | None => [] end) in
      find (matchesDivision patterns) paragraphs
    else None in
  match byPattern with
  | Some p => Ok [p]
  | None =>
      match index step with
      | Some i =>
          if (0 <=? i)%Z then Ok (wrap (JS.index paragraphs i))
          else Throw (DivisionNotFound step)
      | None => Throw (DivisionNotFound step)
      end
  end.

Definition isDernier (num : option jsstring) : bool :=
  match num with
  | Some n => str_eqb n (lit "dernier")
  | None => false
  end.

Definition isType (t : atomType) (o : option atomType) : bool :=
  match t, o with
  | alinea, Some alinea => true
  | phrase, Some phrase => true
  | _, _ => false
  end.

(** The [phrase] branch of [findPortion] and its final [throw]. *)
Definition findPortionPhrase (scope : selection) (step : NavigationStep)
  : res selection :=
  if isType phrase (portionType step)
  then
    let text := Dom.text scope in
    let sentences := splitSentences text in
    match index step with
    | Some i =>
        if (0 <=? i)%Z
        then
          let sentenceIndex := if (i =? 0)%Z then 0%Z else (i - 1)%Z in
          match JS.index sentences sentenceIndex with
          | Some _ => Ok scope
          | None => Throw (SentenceNotFound i)
          end
        else Throw (PortionNotFound step)
    | None => Throw (PortionNotFound step)
    end
  else Throw (PortionNotFound step).

(** [findPortion] *)
Definition findPortion (scope : selection) (step : NavigationStep)
  : res selection :=
  if isType alinea (portionType step)
  then
    let paragraphs := findAll "p" scope in
    if isDernier (num step)
       || match index step with Some i => (i =? -1)%Z | None => false end
    then Ok (wrap (JS.index paragraphs (Z.of_nat (List.length paragraphs) - 1)))
    else
      match index step with
      | Some i =>
          if (0 <=? i)%Z then Ok (wrap (JS.index paragraphs i))
          else findPortionPhrase scope step
      | None => findPortionPhrase scope step
      end
  else findPortionPhrase scope step.

(** One turn of the loop of [navigatePath]. *)
Definition navigateStep (scope : selection) (step : NavigationStep)
  : res selection :=
  match type step with
  | St_texte => Ok scope
  | St_article => Ok scope
  | St_division => findDivision scope step
  | St_portion => findPortion scope step
  end.

(** The loop of [navigatePath]. *)
Fixpoint navigateSteps (scope : selection) (path : list NavigationStep)
  : res selection :=
  match path with
  | [] => Ok scope
  | step :: path' =>
      scope' <- navigateStep scope step ;;
      navigateSteps scope' path'
  end.

(** [navigatePath]; [article] is the [body] the constructor loaded. *)
Definition navigatePath (article : node) (path : list NavigationStep)
  : res jsstring :=
  scope <- navigateSteps [article] path ;;
  Ok (match html scope with Some h => h | None => [] end).

(** [locate] *)
Definition locate (article : node) (reference : TextAstReference)
  : res jsstring :=
  let ref := match reference with
             | ReferenceAndAction r _ => r
             | _ => reference
             end in
  path <- extractNavigationPath ref ;;
  navigatePath article path.

End Nav1.

(* ================================================================== *)
(** ** article-navigator.ts, second document: the prototype *)

Module Proto.

Inductive stepType : Type := St_article | St_division | St_portion.

(** [ordinal?: 'first' | 'last' | 'second' | number] *)
Inductive ordinalValue : Type :=
| o_first | o_last | o_second
| o_number (n : Z).

Record NavigationStep : Type := mkStep {
  type : stepType;
  identifier : option jsstring;
  ordinal : option ordinalValue;
  relative : option Z
}.

Record NavigationPath : Type := mkPath { steps : list NavigationStep }.

(** What [console.warn] receives in [walkReference]. *)
Inductive warning : Type :=
| UnhandledReferenceType (t : atomType).

Definition isDivisionType (t : atomType) : bool :=
  match t with
  | partie | livre | titre | sous_titre | chapitre | section
  | sous_section | paragraphe | sous_paragraphe | sous_sous_paragraphe => true
  | _ => false
  end.

Definition isPortionType (t : atomType) : bool :=
  match t with
  | alinea | phrase | item => true
  | _ => false
  end.

(** [walkReference]: the array [steps] the source pushes to, and the
    console, are threaded through. *)
Fixpoint walkReference (ref : TextAstReference)
  (st : list NavigationStep * list warning)
  : list NavigationStep * list warning :=
  match ref with
  | Atomic article f =>
      (fst st ++ [mkStep St_article (Ast.num f) None (Ast.relative f)], snd st)
  | Atomic t f =>
      if isDivisionType t
      then (fst st ++ [mkStep St_division (Ast.num f) None (Ast.relative f)],
            snd st)
      else if isPortionType t
      then (fst st ++ [mkStep St_portion (Ast.num f) None (Ast.relative f)],
            snd st)
      else (fst st, snd st ++ [UnhandledReferenceType t])
  | ParentChild parent child =>
      walkReference child (walkReference parent st)
  | Enumeration member _ => walkReference member st
  | BoundedInterval member _ => walkReference member st
  | CountedInterval member _ => walkReference member st
  | ReferenceAndAction target _ => walkReference target st
  end.

(** [convertAstToNavigationPath] *)
Definition convertAstToNavigationPath (reference : TextAstReference)
  : NavigationPath :=
  mkPath (fst (walkReference reference ([], []))).

Inductive error : Type :=
| DivisionNotFound (identifier : option jsstring)
| InvalidPortionOrdinal
| PortionAtIndexNotFound (targetIndex : Z).

Definition res := JS.result error.

(** [getDivisionPatterns] *)
Definition getDivisionPatterns (identifier : option jsstring)
  : list jsstring :=
  match identifier with
  | None => []
  | Some [] => []
  | Some id =>
      [ id ++ lit ".-";
        id ++ lit ". -";
        id ++ lit " -";
        id ++ lit ".";
        id ++ [176%N] ]
  end.

Definition matchesDivision (patterns : list jsstring) (p : node) : bool :=
  let text := trim (textContent p) in
  existsb (fun pattern => startsWith text pattern) patterns.

(** [findDivision] *)
Definition findDivision (scope : node) (step : NavigationStep) : res node :=
  let paragraphs := descendants (hasTag "p") scope in
  let patterns := getDivisionPatterns (identifier step) in
  match find (matchesDivision patterns) paragraphs with
  | Some p => Ok p
  | None => Throw (DivisionNotFound (identifier step))
  end.

(** [findPortion] *)
Definition findPortion (scope : node) (step : NavigationStep) : res node :=
  let paragraphs := descendants (hasTag "p") scope in
  targetIndex <-
    match relative step with
    | Some r => Ok r
    | None =>
        match ordinal step with
        | Some o_last => Ok (Z.of_nat (List.length paragraphs) - 1)%Z
        | Some o_first => Ok 0%Z
        | Some o_second => Ok 1%Z
        | Some (o_number n) => Ok (n - 1)%Z
        | None => Throw InvalidPortionOrdinal
        end
    end ;;
  match JS.index paragraphs targetIndex with
  | Some p => Ok p
  | None => Throw (PortionAtIndexNotFound targetIndex)
  end.

(** [navigateStep] *)
Definition navigateStep (scope : node) (step : NavigationStep) : res node :=
  match type step with
  | St_division => findDivision scope step
  | St_portion => findPortion scope step
  | St_article => Ok scope
  end.

(** [locate]: [article] is [dom.body]. *)
Fixpoint locate_from (current : node) (steps : list NavigationStep)
  : res node :=
  match steps with
  | [] => Ok current
  | step :: steps' =>
      current' <- navigateStep current step ;;
      locate_from current' steps'
  end.

Definition locate (article : node) (path : NavigationPath) : res node :=
  locate_from article (steps path).

(** [extractArticleId] *)
Definition extractArticleId (href : option jsstring) : jsstring :=
  match href with
  | None => []
  | Some [] => []
  | Some h =>
      match matchLegiarti h with
      | Some m => m
      | None => []
      end
  end.

Record ParsedModification : Type := mkParsed {
  action : TextAstAction;
  reference : option TextAstReference;
  targetPath : option NavigationPath
}.

Record ModificationBlock : Type := mkBlock {
  id : jsstring;
  articleId : jsstring;
  articleTitle : jsstring;
  rawText : jsstring;
  ast : option ParsedModification
}.

(** What the parsers of tisseuse return: a reference (which may be a
    [ReferenceAndAction]) or an action. *)
Inductive parseResult : Type :=
| IsReference (r : TextAstReference)
| IsAction (a : TextAstAction).

Section Extraction.

(** The parsers [reference] and [action] of tisseuse, run on a fresh
    [TextParserContext] of the text; [None] is a falsy result. *)
Variable reference_parser : jsstring -> option TextAstReference.
Variable action_parser : jsstring -> option TextAstAction.

(** [parseModification] *)
Definition parseModification (text : jsstring) : option ParsedModification :=
  let result :=
    match reference_parser text with
    | Some r => Some (IsReference r)
    | None =>
        match action_parser text with
        | Some a => Some (IsAction a)
        | None => None
        end
    end in
  match result with
  | None => None
  | Some (IsReference (ReferenceAndAction parsedReference parsedAction)) =>
      Some (mkParsed parsedAction (Some parsedReference)
                     (Some (convertAstToNavigationPath parsedReference)))
  | Some (IsAction parsedAction) =>
      Some (mkParsed parsedAction None None)
  | Some (IsReference _) => None
  end.

Definition isModificationItem (n : node) : bool :=
  hasTag "li" n && hasClass (lit "assnatFPFprojetloiartexte") n.

Definition isArticleLink (n : node) : bool :=
  hasTag "a" n && hasClass (lit "lien_article_externe") n.

(** The callback of [items.forEach]: the blocks it pushes. *)
Definition extractItem (index : nat) (li : node) : list ModificationBlock :=
  match descendants isArticleLink li with
  | link :: _ =>
      let href := getAttribute "href" link in
      let articleId := extractArticleId href in
      let rawText := textContent li in
      let ast := parseModification rawText in
      [ mkBlock (lit "mod-" ++ String_of_nat index)
                articleId (textContent link) rawText ast ]
  | [] => []
  end.

Fixpoint forEach_from (index : nat) (items : list node)
  : list ModificationBlock :=
  match items with
  | [] => []
  | li :: items' => extractItem index li ++ forEach_from (S index) items'
  end.

(** [extractModificationsFromProject]; [dom] is the parsed document. *)
Definition extractModificationsFromProject (dom : node)
  : list ModificationBlock :=
  let items := descendants isModificationItem dom in
  forEach_from 0 items.

End Extraction.

End Proto.

(* ================================================================== *)
(** ** part_000 (guide de demarrage): the [modification] parser and the
       cheerio extractor *)

Module Guide.

(** [FragmentPosition]: offsets into the parsed text. *)
Record FragmentPosition : Type := mkPosition { start : Z; stop : Z }.

(** A node of tisseuse as far as spans go: its [position] and the nodes
    below it. *)
Inductive astNode : Type :=
| Node (position : FragmentPosition) (children : list astNode).

Definition position (n : astNode) : FragmentPosition :=
  match n with Node pos _ => pos end.

Definition children (n : astNode) : list astNode :=
  match n with Node _ cs => cs end.

Record TextAstModification : Type := mkModification {
  target : astNode;
  action : astNode;
  newContent : option astNode;
  mposition : FragmentPosition
}.

(** The [value] function of the [modification] chain; [results] are the
    results of [reference], [action] and [optional(citation)]. *)
Definition modification_value (results : astNode * astNode * option astNode)
  : TextAstModification :=
  let '(r0, r1, r2) := results in
  mkModification r0 r1 r2
    (mkPosition (start (position r0))
                (match r2 with
                 | Some c => stop (position c)
                 | None => stop (position r1)
                 end)).

Record ModificationBlock : Type := mkBlock {
  id : jsstring;
  articleId : jsstring;
  rawText : jsstring;
  ast : option TextAstModification
}.

Section Extraction.

(** The three parsers of the chain run in sequence on a fresh context of
    the text: their results, or [None] when one of the first two fails. *)
Variable chain_results : jsstring -> option (astNode * astNode * option astNode).

(** [modification(context)] *)
Definition modification (text : jsstring) : option TextAstModification :=
  match chain_results text with
  | Some results => Some (modification_value results)
  | None => None
  end.

Definition isModificationItem (n : node) : bool :=
  hasTag "li" n && hasClass (lit "assnatFPFprojetloiartexte") n.

Definition isArticleLink (n : node) : bool :=
  hasTag "a" n && hasClass (lit "lien_article_externe") n.

(** The callback of [each]: the block it pushes. *)
Definition extractItem (index : nat) (element : node) : ModificationBlock :=
  let rawText := textContent element in
  let link := descendants isArticleLink element in
  let href := match link with
              | l :: _ => getAttribute "href" l
              | [] => None
              end in
  let articleId := match href with
                   | Some h => match matchLegiarti h with
                               | Some m => m
                               | None => []
                               end
                   | None => []
                   end in
  let ast := modification rawText in
  mkBlock (lit "mod-" ++ String_of_nat index) articleId rawText ast.

Fixpoint each_from (index : nat) (items : list node) : list ModificationBlock :=
  match items with
  | [] => []
  | element :: items' => extractItem index element :: each_from (S index) items'
  end.

(** [extractModificationsFromProject]; [root] is the loaded document. *)
Definition extractModificationsFromProject (root : node)
  : list ModificationBlock :=
  each_from 0 (descendants isModificationItem root).

End Extraction.

End Guide.

(* ================================================================== *)
(** ** part_001 (strategie finale): the first extractor sketch *)

Module Strategie.

Section Extraction.

(** The type of [TextAstModification] and [parseText(context,
    modification, 0)] on a fresh context of the text. *)
Variable TextAstModification : Type.
Variable parseText_modification : jsstring -> option TextAstModification.

Record ModificationBlock : Type := mkBlock {
  id : jsstring;
  rawText : jsstring;
  ast : TextAstModification
}.

Definition isModificationItem (n : node) : bool :=
  hasTag "li" n && hasClass (lit "assnatFPFprojetloiartexte") n.

(** The callback of [items.forEach]: the blocks it pushes. *)
Definition extractItem (index : nat) (li : node) : list ModificationBlock :=
  let rawText := textContent li in
  match parseText_modification rawText with
  | Some parsed => [ mkBlock (lit "mod-" ++ String_of_nat index) rawText parsed ]
  | None => []
  end.

Fixpoint forEach_from (index : nat) (items : list node)
  : list ModificationBlock :=
  match items with
  | [] => []
  | li :: items' => extractItem index li ++ forEach_from (S index) items'
  end.

(** [extractModificationsFromProject] *)
Definition extractModificationsFromProject (dom : node)
  : list ModificationBlock :=
  forEach_from 0 (descendants isModificationItem dom).

End Extraction.

End Strategie.

(* ================================================================== *)
(** ** The ordinal words of the reference grammar *)

Module Ordinals.

(** The ordinal words the specification names. *)
Inductive ordinalWord : Type :=
| premier | premiere | second | seconde | dernier | derniere.

(** Modelled from the spec: the reference grammar of tisseuse is not in the
    repository; its ordinal normalisation maps premier/premiere to 1,
    second/seconde to 2 and dernier/derniere to the sentinel -1. *)
Definition normalizeOrdinal (w : ordinalWord) : Z :=
  match w with
  | premier | premiere => 1
  | second | seconde => 2
  | dernier | derniere => -1
  end.

End Ordinals.

(* ================================================================== *)
(** ** article-navigator.ts, second document: applying a modification *)

Module Diff.

(** What [applyModificationAndGenerateDiff] rejects with: its own two
    errors, or the error [locate] threw. *)
Inductive error : Type :=
| NoAST
| NoTargetPath
| Navigation (e : Proto.error).

(** [buildNewHTMLFromCitations] *)
Definition buildNewHTMLFromCitations (oldHTML : jsstring)
  (citations : list jsstring) : jsstring :=
  match citations with
  | [] => oldHTML
  | _ :: _ => lit "<p>Nouveau contenu TODO</p>"
  end.

Section Apply.

(** [extractHTML], the [outerHTML] of the DOM, and the diff function the
    caller passes. *)
Variable extractHTML : node -> jsstring.
Variable generateHtmlSplitDiff : jsstring -> jsstring -> jsstring.

(** [applyModificationAndGenerateDiff]; [article] is the body of the parsed
    [articleHTML]. *)
Definition applyModificationAndGenerateDiff
  (modification : Proto.ModificationBlock) (article : node)
  : JS.result error jsstring :=
  match Proto.ast modification with
  | None => Throw NoAST
  | Some ast =>
      match Proto.targetPath ast with
      | None => Throw NoTargetPath
      | Some targetPath =>
          match Proto.locate article targetPath with
          | Throw e => Throw (Navigation e)
          | Ok targetElement =>
              let oldHTML := extractHTML targetElement in
              let citations := Ast.originalCitations (Proto.action ast) in
              let newHTML :=
                match Ast.action (Proto.action ast) with
                | MODIFICATION =>
                    buildNewHTMLFromCitations oldHTML citations
                | CREATION =>
                    oldHTML ++ buildNewHTMLFromCitations [] citations
                | SUPPRESSION => []
                | CREATION_OU_MODIFICATION =>
                    buildNewHTMLFromCitations oldHTML citations
                end in
              Ok (generateHtmlSplitDiff oldHTML newHTML)
          end
      end
  end.

End Apply.

End Diff.

(* ================================================================== *)
(** ** prochaines-etapes.md: the extractor with article numbers *)

Module Etapes.

(** [extractArticleNumFromAST] *)
Fixpoint extractArticleNumFromAST (ref : TextAstReference) : jsstring :=
  match ref with
  | Atomic article f =>
      match Ast.num f with
      | Some n => n
      | None => []
      end
  | ParentChild parent child =>
      match extractArticleNumFromAST parent with
      | [] => extractArticleNumFromAST child
      | parentNum => parentNum
      end
  | _ => []
  end.

Record ModificationBlock : Type := mkBlock {
  id : jsstring;
  articleId : jsstring;
  articleNum : jsstring;
  rawText : jsstring;
  ast : option TextAstReference
}.

Section Extraction.

(** The parser [reference] of tisseuse on a fresh context of the text. *)
Variable reference_parser : jsstring -> option TextAstReference.

Definition isModificationItem (n : node) : bool :=
  hasTag "li" n && hasClass (lit "assnatFPFprojetloiartexte") n.

Definition isArticleLink (n : node) : bool :=
  hasTag "a" n && hasClass (lit "lien_article_externe") n.

(** The callback of [each]: the block it pushes. *)
Definition extractItem (index : nat) (element : node) : ModificationBlock :=
  let rawText := trim (textContent element) in
  let link := descendants isArticleLink element in
  let href := match link with
              | l :: _ => getAttribute "href" l
              | [] => None
              end in
  let articleId := match href with
                   | Some h => match matchLegiarti h with
                               | Some m => m
                               | None => []
                               end
                   | None => []
                   end in
  let ast := reference_parser rawText in
  let articleNum :=
    match ast with
    | Some (ReferenceAndAction target _) => extractArticleNumFromAST target
    | Some r => extractArticleNumFromAST r
    | None => []
    end in
  mkBlock (lit "mod-" ++ String_of_nat index) articleId articleNum rawText ast.

Fixpoint each_from (index : nat) (items : list node) : list ModificationBlock :=
  match items with
  | [] => []
  | element :: items' => extractItem index element :: each_from (S index) items'
  end.

(** [extractModificationsFromProject]; [root] is the loaded document. *)
Definition extractModificationsFromProject (root : node)
  : list ModificationBlock :=
  each_from 0 (descendants isModificationItem root).

End Extraction.

End Etapes.

(* ================================================================== *)
(** ** Notions the statements use *)

(** A block shows one of the surface forms [patterns] when its trimmed
    text starts with it: the test of both [findDivision] loops. *)
Definition showsForm (patterns : list jsstring) (block : node) : Prop :=
  exists pattern,
    In pattern patterns /\ startsWith (trim (textContent block)) pattern = true.

(** A block of a project has a link to an article. *)
Definition hasArticleLink (li : node) : bool :=
  match descendants Proto.isArticleLink li with
  | [] => false
  | _ :: _ => true
  end.

Definition isSome {A} (o : option A) : bool :=
  match o with
  | Some _ => true
  | None => false
  end.

Module Spans.

Import Guide.






End Spans.

(** ** part_001 (strategie finale): the [modification] parser *)

Module StrategieParser.

(** [TextAstModification] of part_001: a type, a target, an action and a
    new content; no position. *)
Record TextAstModification : Type := mkModification {
  target : Guide.astNode;
  action : Guide.astNode;
  newContent : option Guide.astNode
}.

(** The [value] function of the [modification] chain of part_001. *)
Definition modification_value
  (results : Guide.astNode * Guide.astNode * option Guide.astNode)
  : TextAstModification :=
  let '(r0, r1, r2) := results in
  mkModification r0 r1 r2.

(** [node.position] read on such a node: the object literal sets no
    [position], so the property is [undefined]. *)
Definition position (m : TextAstModification)
  : option Guide.FragmentPosition :=
  None.

End StrategieParser.

(** ** The composite nodes of the reference grammar *)

Module SpecNodes.

Import Guide.









End SpecNodes.

(** ** Sample documents, references and parsers *)

Module Samples.

(** Four paragraph blocks, the marker of II on the third. *)
Definition fourBlocks : node :=
  body [ p "I.- Premiere section";
         p "Texte de la premiere section.";
         p "II.- Deuxieme section";
         p "Dernier alinea." ].

(** The document of the navigation test of prochaines-etapes.md. *)
Definition testDocument : node :=
  body [ p "I.- Premiere section";
         p "II.- Deuxieme section";
         p "Premier alinea.";
         p "Dernier alinea." ].

Definition threeBlocks : node := body [ p "A"; p "B"; p "C" ].

Definition itemII : TextAstReference :=
  Atomic item (mkAtom None (Some (lit "II")) (Some 2%Z) None).

Definition itemI : TextAstReference :=
  Atomic item (mkAtom None (Some (lit "I")) (Some 1%Z) None).

Definition dernierAlinea : TextAstReference :=
  Atomic alinea (mkAtom None (Some (lit "dernier")) (Some (-1)%Z) None).

Definition secondePhrase : TextAstReference :=
  Atomic phrase (mkAtom None None (Some 2%Z) None).

(** "du dernier alinea du II", as the test of prochaines-etapes.md gives it. *)
Definition dernierAlineaDuII : TextAstReference :=
  ParentChild itemII dernierAlinea.

(** The steps [referenceToStep] compiles from the references above. *)
Definition stepII : Nav1.NavigationStep :=
  Nav1.mkStep Nav1.St_division None (Some (lit "II")) (Some item) None
              (Some 2%Z).

Definition stepDernierAlinea : Nav1.NavigationStep :=
  Nav1.mkStep Nav1.St_portion None (Some (lit "dernier")) None (Some alinea)
              (Some (-1)%Z).

Definition stepAlinea (i : Z) : Nav1.NavigationStep :=
  Nav1.mkStep Nav1.St_portion None None None (Some alinea) (Some i).

Definition stepPhrase (i : Z) : Nav1.NavigationStep :=
  Nav1.mkStep Nav1.St_portion None None None (Some phrase) (Some i).

(** A division step for a marker that no sample document shows. *)
Definition stepIX : Nav1.NavigationStep :=
  Nav1.mkStep Nav1.St_division None (Some (lit "IX")) (Some item) None None.


Definition protoDivisionII : Proto.NavigationStep :=
  Proto.mkStep Proto.St_division (Some (lit "II")) None None.


Definition protoPortion (o : Proto.ordinalValue) : Proto.NavigationStep :=
  Proto.mkStep Proto.St_portion None (Some o) None.

Definition threeSentences : node :=
  p "Premier alinea. Premiere phrase. Seconde phrase.".

Definition abrogation : TextAstAction := mkAction SUPPRESSION [].

(** A [reference] parser that knows one sentence opening, and an [action]
    parser that knows none. *)
Definition sampleReference (text : jsstring) : option TextAstReference :=
  if startsWith (trim text) (lit "Le II")
  then Some (ReferenceAndAction itemII abrogation)
  else None.

Definition sampleAction (text : jsstring) : option TextAstAction := None.

Definition sampleModification (text : jsstring) : option unit :=
  if startsWith (trim text) (lit "Le II") then Some tt else None.

Definition sampleChain (text : jsstring)
  : option (Guide.astNode * Guide.astNode * option Guide.astNode) :=
  if startsWith (trim text) (lit "Le II")
  then Some (Guide.Node (Guide.mkPosition 0 5) [],
             Guide.Node (Guide.mkPosition 6 17) [], None)
  else None.

(** The results of a chain on "Le II de l'article 1 est abroge : <<...>>":
    a parent-child reference, an action and a citation. *)
Definition sampleTarget : Guide.astNode :=
  Guide.Node (Guide.mkPosition 0 23)
    [ Guide.Node (Guide.mkPosition 0 5) [];
      Guide.Node (Guide.mkPosition 9 23) [] ].

Definition sampleActionNode : Guide.astNode :=
  Guide.Node (Guide.mkPosition 24 34) [].

Definition sampleCitation : Guide.astNode :=
  Guide.Node (Guide.mkPosition 37 50) [].

Definition modificationItem (children : list node) : node :=
  Element "li" [("class"%string, lit "assnatFPFprojetloiartexte")] children.

Definition articleLink (href title : string) : node :=
  Element "a" [("class"%string, lit "lien_article_externe"); ("href"%string, lit href)]
          [TextNode (lit title)].

(** A project with three blocks: one that parses, one that does not, one
    without a link to an article. *)
Definition project : node :=
  body [ Element "ul" []
    [ modificationItem [ TextNode (lit "Le II de ");
                         articleLink "https://x/LEGIARTI000001" "l'article 1";
                         TextNode (lit " est abroge.") ];
      modificationItem [ TextNode (lit "Texte etranger a la grammaire de ");
                         articleLink "https://x/LEGIARTI000002" "l'article 2" ];
      modificationItem [ TextNode (lit "Le II est abroge.") ] ] ].

End Samples.

(** ** Notions and samples for the properties of the whole code *)

(** The references a parent-child tree is made of, parents first. *)
Fixpoint leaves (ref : TextAstReference) : list TextAstReference :=
  match ref with
  | ParentChild parent child => leaves parent ++ leaves child
  | _ => [ref]
  end.

(** The text has a sentence break: a terminal character followed by a
    white space. *)
Fixpoint hasBreak (s : jsstring) : bool :=
  match s with
  | [] => false
  | c :: rest =>
      (isTerminal c
       && match rest with d :: _ => isWhitespace d | [] => false end)
      || hasBreak rest
  end.

(** The steps of the first navigator that look at the document. *)
Definition looksAtDocument (step : Nav1.NavigationStep) : bool :=
  match Nav1.type step with
  | Nav1.St_division | Nav1.St_portion => true
  | _ => false
  end.

Definition protoLooksAtDocument (step : Proto.NavigationStep) : bool :=
  match Proto.type step with
  | Proto.St_division | Proto.St_portion => true
  | Proto.St_article => false
  end.

(** An article step with a non-empty number. *)
Definition isNumberedArticle (step : Nav1.NavigationStep) : bool :=
  match Nav1.type step with
  | Nav1.St_article => Nav1.truthy (Nav1.num step)
  | _ => false
  end.

(** The suffixes that decide whether a text shows a marker. *)
Definition decidingSuffixes : list jsstring :=
  [ lit " -"; lit "."; [176%N]; lit ")" ].

Definition notDigitFirst (s : jsstring) : bool :=
  match s with
  | d :: _ => negb (isDigit d)
  | [] => true
  end.

Module MoreSamples.

Definition article224 : TextAstReference :=
  Atomic article (mkAtom None (Some (lit "224")) None None).

Definition codeGeneral : TextAstReference :=
  Atomic texte (mkAtom (Some (lit "CGI")) None None None).

(** "du dernier alinea du II de l'article 224 du CGI" *)
Definition fullReference : TextAstReference :=
  ParentChild codeGeneral
    (ParentChild article224 (ParentChild Samples.itemII Samples.dernierAlinea)).

Definition alineaRelative (r : Z) : TextAstReference :=
  Atomic alinea (mkAtom None None None (Some r)).

Definition chapitreII : TextAstReference :=
  Atomic chapitre (mkAtom None (Some (lit "II")) None None).

Definition remplacement (citations : list jsstring) : TextAstAction :=
  mkAction MODIFICATION citations.

Definition blockOf (a : TextAstAction) (r : TextAstReference)
  : Proto.ModificationBlock :=
  Proto.mkBlock (lit "mod-0") [] [] []
    (Some (Proto.mkParsed a (Some r)
                          (Some (Proto.convertAstToNavigationPath r)))).

Definition sampleHref : jsstring :=
  lit "https://tricoteuses.fr/legifrance/articles/LEGIARTI000051200465".

End MoreSamples.

(* ================================================================== *)
(** * Properties *)

(** ** Shared lemmas on arrays and on the search loops *)

(** Case analysis on every test of a function body. *)
Ltac split_tests :=
  repeat match goal with
    | H : context [match ?c with _ => _ end] |- _ => destruct c eqn:?
    | |- context [match ?c with _ => _ end] => destruct c eqn:?
    end.

Section FirstMatch.

Variable A : Type.
Variable f : A -> bool.

(** A [for ... of] loop that returns at the first element passing [f]
    returns the element in front of which nothing passes. *)
Lemma find_first_split (l : list A) :
  (exists x, In x l /\ f x = true) ->
  exists l1 x l2,
    l = l1 ++ x :: l2 /\ f x = true
    /\ (forall y, In y l1 -> f y = false)
    /\ find f l = Some x.
Proof.
  induction l as [|a l IH]; intros (x & Hin & Hfx).
  - destruct Hin.
  - destruct (f a) eqn:Hfa.
    + exists [], a, l. simpl. rewrite Hfa. repeat split; auto.
      intros y [].
    + assert (Hex : exists x, In x l /\ f x = true).
      { destruct Hin as [->|Hin]; [congruence|eauto]. }
      destruct (IH Hex) as (l1 & y & l2 & -> & Hfy & Hnone & Hfind).
      exists (a :: l1), y, l2. simpl. rewrite Hfa.
      repeat split; auto.
      intros z [<-|Hz]; auto.
Qed.

Lemma find_none_iff (l : list A) :
  find f l = None <-> forall x, In x l -> f x = false.
Proof.
  split.
  - intros H x Hx. exact (find_none f l H x Hx).
  - induction l as [|a l IH]; intros H; simpl; auto.
    rewrite (H a (or_introl eq_refl)). apply IH. intros x Hx.
    apply H. now right.
Qed.

End FirstMatch.

Lemma index_nonneg {A} (l : list A) (i : Z) :
  (0 <= i)%Z -> JS.index l i = nth_error l (Z.to_nat i).
Proof.
  intros H. unfold JS.index.
  destruct (i <? 0)%Z eqn:E; auto. apply Z.ltb_lt in E. lia.
Qed.

Lemma index_negative {A} (l : list A) (i : Z) :
  (i < 0)%Z -> JS.index l i = None.
Proof.
  intros H. unfold JS.index. apply Z.ltb_lt in H. now rewrite H.
Qed.

Lemma index_out_of_range {A} (l : list A) (i : Z) :
  (Z.of_nat (List.length l) <= i)%Z -> JS.index l i = None.
Proof.
  intros H. rewrite index_nonneg by lia. apply nth_error_None. lia.
Qed.

Lemma index_last {A} (l : list A) (x : A) :
  JS.index (l ++ [x]) (Z.of_nat (List.length (l ++ [x])) - 1) = Some x.
Proof.
  rewrite length_app. simpl. rewrite index_nonneg by lia.
  replace (Z.to_nat (Z.of_nat (List.length l + 1) - 1)) with (List.length l) by lia.
  rewrite nth_error_app2 by lia. now rewrite Nat.sub_diag.
Qed.


Lemma Nav1_matchesDivision_spec patterns block :
  Nav1.matchesDivision patterns block = true <-> showsForm patterns block.
Proof.
  unfold Nav1.matchesDivision, showsForm. rewrite existsb_exists. tauto.
Qed.

Lemma Proto_matchesDivision_spec patterns block :
  Proto.matchesDivision patterns block = true <-> showsForm patterns block.
Proof.
  unfold Proto.matchesDivision, showsForm. rewrite existsb_exists. tauto.
Qed.

Lemma not_showsForm_false (m : node -> bool) patterns :
  (forall b, m b = true <-> showsForm patterns b) ->
  forall b, ~ showsForm patterns b <-> m b = false.
Proof.
  intros Hm b. rewrite <- Hm. destruct (m b); split; congruence.
Qed.

(** ** C5: a division step returns the first block showing the marker *)

(** C5 (first navigator).  When some paragraph of the scope shows a surface
    form of a non-empty marker, [findDivision] succeeds with the first such
    paragraph in document order. *)
Lemma Nav1_findDivision_first scope step marker :
  Nav1.num step = Some marker -> marker <> [] ->
  (exists b, In b (findAll "p" scope)
             /\ showsForm (Nav1.getDivisionPatterns marker) b) ->
  exists before block after,
    findAll "p" scope = before ++ block :: after
    /\ showsForm (Nav1.getDivisionPatterns marker) block
    /\ (forall b, In b before -> ~ showsForm (Nav1.getDivisionPatterns marker) b)
    /\ Nav1.findDivision scope step = Ok [block].
Proof.
  intros Hnum Hne (b & Hin & Hb).
  set (pats := Nav1.getDivisionPatterns marker) in *.
  destruct (@find_first_split _ (Nav1.matchesDivision pats) (findAll "p" scope))
    as (l1 & x & l2 & Hsplit & Hx & Hnone & Hfind).
  { exists b. split; auto. now apply Nav1_matchesDivision_spec. }
  exists l1, x, l2. repeat split; auto.
  - now apply Nav1_matchesDivision_spec.
  - intros y Hy. apply (not_showsForm_false _ (Nav1_matchesDivision_spec pats)); auto.
  - unfold Nav1.findDivision. rewrite Hnum.
    destruct marker as [|c marker]; [congruence|]. simpl Nav1.truthy. cbv iota.
    fold pats. now rewrite Hfind.
Qed.

Lemma Proto_findDivision_first scope step marker :
  Proto.identifier step = Some marker -> marker <> [] ->
  (exists b, In b (descendants (hasTag "p") scope)
             /\ showsForm (Proto.getDivisionPatterns (Some marker)) b) ->
  exists before block after,
    descendants (hasTag "p") scope = before ++ block :: after
    /\ showsForm (Proto.getDivisionPatterns (Some marker)) block
    /\ (forall b, In b before
                  -> ~ showsForm (Proto.getDivisionPatterns (Some marker)) b)
    /\ Proto.findDivision scope step = Ok block.
Proof.
  intros Hid Hne (b & Hin & Hb).
  set (pats := Proto.getDivisionPatterns (Some marker)) in *.
  destruct (@find_first_split _ (Proto.matchesDivision pats)
              (descendants (hasTag "p") scope))
    as (l1 & x & l2 & Hsplit & Hx & Hnone & Hfind).
  { exists b. split; auto. now apply Proto_matchesDivision_spec. }
  exists l1, x, l2. repeat split; auto.
  - now apply Proto_matchesDivision_spec.
  - intros y Hy. apply (not_showsForm_false _ (Proto_matchesDivision_spec pats)); auto.
  - unfold Proto.findDivision. rewrite Hid. fold pats. now rewrite Hfind.
Qed.

(** C5.  For every Division step whose non-empty marker shows, in one of
    its accepted surface forms, as the prefix of the (trimmed) text of some
    paragraph of the current scope, both navigators succeed and return the
    first such paragraph in document order: no paragraph in front of the
    returned one shows the marker. *)
Theorem C5_division_first_match_wins (marker : jsstring) :
  marker <> [] ->
  (forall scope step,
      Nav1.num step = Some marker ->
      (exists b, In b (findAll "p" scope)
                 /\ showsForm (Nav1.getDivisionPatterns marker) b) ->
      exists before block after,
        findAll "p" scope = before ++ block :: after
        /\ showsForm (Nav1.getDivisionPatterns marker) block
        /\ (forall b, In b before
                      -> ~ showsForm (Nav1.getDivisionPatterns marker) b)
        /\ Nav1.findDivision scope step = Ok [block])
  /\
  (forall scope step,
      Proto.identifier step = Some marker ->
      (exists b, In b (descendants (hasTag "p") scope)
                 /\ showsForm (Proto.getDivisionPatterns (Some marker)) b) ->
      exists before block after,
        descendants (hasTag "p") scope = before ++ block :: after
        /\ showsForm (Proto.getDivisionPatterns (Some marker)) block
        /\ (forall b, In b before
                      -> ~ showsForm (Proto.getDivisionPatterns (Some marker)) b)
        /\ Proto.findDivision scope step = Ok block).
Proof.
  intros Hne. split; intros scope step Hm Hex.
  - eapply Nav1_findDivision_first; eauto.
  - eapply Proto_findDivision_first; eauto.
Qed.

Import Samples.

(** The marker II shows on the third block of [fourBlocks]: the first
    navigator returns that block. *)
Lemma C5_division_first_match_wins_witness :
  lit "II" <> []
  /\ Nav1.num stepII = Some (lit "II")
  /\ (exists b, In b (findAll "p" [fourBlocks])
                /\ showsForm (Nav1.getDivisionPatterns (lit "II")) b)
  /\ exists before block after,
       findAll "p" [fourBlocks] = before ++ block :: after
       /\ showsForm (Nav1.getDivisionPatterns (lit "II")) block
       /\ (forall b, In b before
                     -> ~ showsForm (Nav1.getDivisionPatterns (lit "II")) b)
       /\ Nav1.findDivision [fourBlocks] stepII = Ok [block].
Proof.
  assert (Hne : lit "II" <> []) by discriminate.
  assert (Hex : exists b, In b (findAll "p" [fourBlocks])
                /\ showsForm (Nav1.getDivisionPatterns (lit "II")) b).
  { exists (p "II.- Deuxieme section"). split.
    - simpl. auto.
    - exists (lit "II.-"). split; [simpl; auto | reflexivity]. }
  split; [exact Hne|]. split; [reflexivity|]. split; [exact Hex|].
  exact (proj1 (C5_division_first_match_wins Hne) [fourBlocks] stepII
               eq_refl Hex).
Defined.

(** ** C10: the two derivations of surface forms *)

(** C10 as stated fails at the marker 1: the form "1)" is a pattern of the
    first navigator and not of the second. *)
Lemma C10_counterexample :
  ~ (forall pattern,
        In pattern (Nav1.getDivisionPatterns (lit "1"))
        <-> In pattern (Proto.getDivisionPatterns (Some (lit "1")))).
Proof.
  intros H.
  assert (Hin : In (lit "1)") (Nav1.getDivisionPatterns (lit "1"))).
  { simpl. auto 10. }
  apply H in Hin. simpl in Hin.
  repeat (destruct Hin as [Hin|Hin]; [discriminate Hin|]). exact Hin.
Qed.

(** C10, amended.  For every non-empty marker the patterns of the first
    navigator are the five patterns of the second, in the same order,
    followed by the parenthesis form, which the second does not have. *)
Theorem C10_patterns_up_to_parenthesis (num : jsstring) :
  num <> [] ->
  Nav1.getDivisionPatterns num
  = Proto.getDivisionPatterns (Some num) ++ [num ++ lit ")"]
  /\ ~ In (num ++ lit ")") (Proto.getDivisionPatterns (Some num)).
Proof.
  intros Hne. destruct num as [|c num]; [congruence|]. split.
  - reflexivity.
  - unfold Proto.getDivisionPatterns.
    intros Hin. simpl in Hin.
    repeat (destruct Hin as [Hin|Hin];
            [ injection Hin as Hin; apply app_inv_head in Hin; discriminate Hin
            | ]).
    exact Hin.
Qed.

Lemma C10_patterns_up_to_parenthesis_witness :
  lit "II" <> []
  /\ Nav1.getDivisionPatterns (lit "II")
     = Proto.getDivisionPatterns (Some (lit "II")) ++ [lit "II" ++ lit ")"]
  /\ ~ In (lit "II" ++ lit ")") (Proto.getDivisionPatterns (Some (lit "II"))).
Proof.
  assert (Hne : lit "II" <> []) by discriminate.
  split; [exact Hne|]. exact (C10_patterns_up_to_parenthesis Hne).
Defined.

(** ** C1: the scope after a division step *)

(** After a division step the scope of the first navigator is the matched
    paragraph alone, and a paragraph has no paragraph below it. *)
Lemma Nav1_findDivision_scope_is_one_paragraph :
  Nav1.findDivision [fourBlocks] stepII = Ok [p "II.- Deuxieme section"]
  /\ findAll "p" [p "II.- Deuxieme section"] = [].
Proof. split; reflexivity. Qed.

(** Whatever the document, a division step of the first navigator leaves
    at most one element in the scope, and that element is a paragraph. *)
Lemma Nav1_findDivision_selects_one_paragraph scope step sel :
  Nav1.findDivision scope step = Ok sel ->
  sel = [] \/ exists b, sel = [b] /\ In b (findAll "p" scope).
Proof.
  unfold Nav1.findDivision. intros H.
  destruct (if Nav1.truthy (Nav1.num step) then _ else _) as [b|] eqn:Hfind.
  - injection H as <-. right. exists b. split; auto.
    destruct (Nav1.truthy (Nav1.num step)); [|discriminate].
    now apply find_some in Hfind.
  - destruct (Nav1.index step) as [i|]; [|discriminate].
    destruct (0 <=? i)%Z eqn:Hpos; [|discriminate].
    injection H as <-. apply Z.leb_le in Hpos.
    rewrite index_nonneg by assumption.
    destruct (nth_error (findAll "p" scope) (Z.to_nat i)) as [b|] eqn:Hn.
    + right. exists b. split; auto. eapply nth_error_In; eauto.
    + now left.
Qed.

(** C1, on the code.  On four paragraph blocks with the marker of II on the
    third, the division step selects the third block itself; the step for
    the last paragraph then finds no paragraph inside it: the first
    navigator ends on the empty selection and [locate] returns the empty
    string, not the fourth block; the prototype throws.  The document of
    the repository's own navigation test gives the same empty string. *)
Theorem C1_scope_after_division_is_the_marker_block :
  Nav1.navigateSteps [fourBlocks] [stepII] = Ok [p "II.- Deuxieme section"]
  /\ Nav1.navigateSteps [fourBlocks] [stepII; stepDernierAlinea] = Ok []
  /\ Nav1.extractNavigationPath dernierAlineaDuII
     = Ok [stepII; stepDernierAlinea]
  /\ Nav1.locate fourBlocks dernierAlineaDuII = Ok []
  /\ Nav1.locate testDocument dernierAlineaDuII = Ok []
  /\ Proto.locate fourBlocks
       (Proto.mkPath [protoDivisionII; protoPortion Proto.o_last])
     = Throw (Proto.PortionAtIndexNotFound (-1)).
Proof. repeat split; reflexivity. Qed.

(** ** C2: sentence steps *)

(** Whenever the sentence branch of [findPortion] succeeds it returns the
    scope it was given. *)
Lemma Nav1_findPortion_phrase_whole_scope scope step r :
  Nav1.portionType step = Some phrase ->
  Nav1.findPortion scope step = Ok r -> r = scope.
Proof.
  intros Hty. unfold Nav1.findPortion, Nav1.findPortionPhrase.
  rewrite Hty. simpl.
  destruct (Nav1.index step) as [i|]; [|discriminate].
  destruct (0 <=? i)%Z; [|discriminate].
  destruct (JS.index _ _); [|discriminate].
  now intros [= <-].
Qed.

(** C2, on the code.  The paragraph has three sentences; the step for the
    second one checks that it exists and returns the whole paragraph: the
    selection, its text and its HTML are those of the scope, and no span
    of the sentence is returned. *)
Theorem C2_sentence_step_returns_the_whole_block :
  Nav1.splitSentences (Dom.text [threeSentences])
  = [lit "Premier alinea"; lit "Premiere phrase"; lit "Seconde phrase."]
  /\ Nav1.findPortion [threeSentences] (stepPhrase 2) = Ok [threeSentences]
  /\ Nav1.navigatePath threeSentences [stepPhrase 2]
     = Ok (lit "Premier alinea. Premiere phrase. Seconde phrase.").
Proof. repeat split; reflexivity. Qed.

(** ** C3: paragraph steps *)

(** In the first navigator a non-negative index of a paragraph step is the
    offset itself, and the step never throws. *)
Lemma Nav1_findPortion_alinea_offset scope step i :
  Nav1.portionType step = Some alinea ->
  Nav1.isDernier (Nav1.num step) = false ->
  Nav1.index step = Some i -> (0 <= i)%Z ->
  Nav1.findPortion scope step = Ok (wrap (JS.index (findAll "p" scope) i)).
Proof.
  intros Hty Hnum Hidx Hpos. unfold Nav1.findPortion.
  rewrite Hty, Hnum, Hidx. simpl.
  assert (H1 : (i =? -1)%Z = false) by (apply Z.eqb_neq; lia).
  assert (H0 : (0 <=? i)%Z = true) by (apply Z.leb_le; lia).
  now rewrite H1, H0.
Qed.

(** C3, on the code.  On three paragraphs A, B, C the first navigator
    takes a non-negative index as it is: ordinal 1 selects B, ordinal 3
    selects nothing, and an ordinal out of range gives the empty selection
    and an empty result instead of a failure; only the sentinel -1 behaves
    as claimed.  The prototype converts a positive ordinal and fails out of
    range, but takes the number -1 for the index -2. *)
Theorem C3_paragraph_ordinal_taken_as_offset :
  Nav1.findPortion [threeBlocks] (stepAlinea (-1)) = Ok [p "C"]
  /\ Nav1.findPortion [threeBlocks] (stepAlinea 1) = Ok [p "B"]
  /\ Nav1.findPortion [threeBlocks] (stepAlinea 3) = Ok []
  /\ Nav1.findPortion [threeBlocks] (stepAlinea 7) = Ok []
  /\ Nav1.navigatePath threeBlocks [stepAlinea 7] = Ok []
  /\ Proto.findPortion threeBlocks (protoPortion (Proto.o_number 1))
     = Ok (p "A")
  /\ Proto.findPortion threeBlocks (protoPortion (Proto.o_number 7))
     = Throw (Proto.PortionAtIndexNotFound 6)
  /\ Proto.findPortion threeBlocks (protoPortion (Proto.o_number (-1)))
     = Throw (Proto.PortionAtIndexNotFound (-2)).
Proof. repeat split; reflexivity. Qed.

(** ** C6: enumerations and intervals in the path compiler *)

(** C6 as stated fails: the path compiled for "I et II" is the path
    compiled for "I" alone, so nothing in the result can mark the first as
    partial and the second as complete. *)
Lemma C6_counterexample :
  ~ exists isPartial : Proto.NavigationPath -> bool,
      isPartial (Proto.convertAstToNavigationPath (Enumeration itemI itemII))
      = true
      /\ isPartial (Proto.convertAstToNavigationPath itemI) = false.
Proof.
  intros (isPartial & Hpartial & Hcomplete).
  change (Proto.convertAstToNavigationPath (Enumeration itemI itemII))
    with (Proto.convertAstToNavigationPath itemI) in Hpartial.
  congruence.
Qed.

(** C6, amended.  For an enumeration or an interval, [walkReference] does
    exactly what it does for the first member: the same steps are pushed
    and the same console warnings, none of them about the members left
    out; the compiled path, a record with the steps alone, is the path of
    the first member.  The compiler is total: no shape makes it throw. *)
Theorem C6_first_member_only_without_warning
  (member other : TextAstReference) (count : Z)
  (st : list Proto.NavigationStep * list Proto.warning) :
  Proto.walkReference (Enumeration member other) st
  = Proto.walkReference member st
  /\ Proto.walkReference (BoundedInterval member other) st
     = Proto.walkReference member st
  /\ Proto.walkReference (CountedInterval member count) st
     = Proto.walkReference member st
  /\ Proto.convertAstToNavigationPath (Enumeration member other)
     = Proto.convertAstToNavigationPath member
  /\ Proto.convertAstToNavigationPath (BoundedInterval member other)
     = Proto.convertAstToNavigationPath member
  /\ Proto.convertAstToNavigationPath (CountedInterval member count)
     = Proto.convertAstToNavigationPath member.
Proof. repeat split; reflexivity. Qed.

(** The compiler of the first navigator knows no enumeration: there the
    shape is a thrown error. *)
Lemma Nav1_enumeration_unsupported (member other : TextAstReference) :
  Nav1.extractNavigationPath (Enumeration member other)
  = Throw (Nav1.UnsupportedReferenceType (Enumeration member other)).
Proof. reflexivity. Qed.

(** ** C7: what a navigation failure reports *)

Lemma Nav1_findDivision_error scope step e :
  Nav1.findDivision scope step = Throw e -> e = Nav1.DivisionNotFound step.
Proof.
  unfold Nav1.findDivision. intros H. split_tests; congruence.
Qed.

















(** ** C8: ordinals stay one-based until the navigator *)

Lemma Proto_walkReference_no_ordinal ref : forall st,
  Forall (fun s => Proto.ordinal s = None) (fst st) ->
  Forall (fun s => Proto.ordinal s = None) (fst (Proto.walkReference ref st)).
Proof.
  induction ref as [t f|parent IHp child IHc|member IHm other _
                   |member IHm other _|member IHm count|target IHt act];
    intros st Hst; simpl; auto.
  destruct t; simpl; auto; apply Forall_app; split; auto.
Qed.

(** C8.  The ordinal words have one value each, whatever surrounds them:
    dernier is the sentinel -1, second and seconde are 2, premier is 1.
    The compiled step of the first navigator carries the index of a portion
    as the AST has it, whatever the parent of the portion; the steps of the
    prototype carry no ordinal at all.  The conversion to a 0-based offset
    is made in [findPortion]: sentence n is [sentences[n-1]] in the first
    navigator, paragraph n is [paragraphs[n-1]] in the prototype. *)
Theorem C8_ordinals_one_based_until_navigation :
  (Ordinals.normalizeOrdinal Ordinals.dernier = (-1)%Z
   /\ Ordinals.normalizeOrdinal Ordinals.derniere = (-1)%Z
   /\ Ordinals.normalizeOrdinal Ordinals.second = 2%Z
   /\ Ordinals.normalizeOrdinal Ordinals.seconde = 2%Z
   /\ Ordinals.normalizeOrdinal Ordinals.premier = 1%Z
   /\ Ordinals.normalizeOrdinal Ordinals.premiere = 1%Z)
  /\ (forall unit f,
         unit = alinea \/ unit = phrase ->
         Nav1.referenceToStep (Atomic unit f)
         = Ok (Nav1.mkStep Nav1.St_portion None (Ast.num f) None (Some unit)
                           (Ast.index f)))
  /\ (forall parent unit f path,
         unit = alinea \/ unit = phrase ->
         Nav1.walkReference (ParentChild parent (Atomic unit f)) path
         = (path1 <- Nav1.walkReference parent path ;;
            Ok (path1 ++ [Nav1.mkStep Nav1.St_portion None (Ast.num f) None
                                      (Some unit) (Ast.index f)])))
  /\ (forall ref,
         Forall (fun s => Proto.ordinal s = None)
                (Proto.steps (Proto.convertAstToNavigationPath ref)))
  /\ (forall scope step n,
         Nav1.portionType step = Some phrase ->
         Nav1.index step = Some n -> (0 < n)%Z ->
         Nav1.findPortion scope step
         = match JS.index (Nav1.splitSentences (Dom.text scope)) (n - 1) with
           | Some _ => Ok scope
           | None => Throw (Nav1.SentenceNotFound n)
           end)
  /\ (forall scope n,
         Proto.findPortion scope (protoPortion (Proto.o_number n))
         = match JS.index (descendants (hasTag "p") scope) (n - 1) with
           | Some b => Ok b
           | None => Throw (Proto.PortionAtIndexNotFound (n - 1))
           end).
Proof.
  split; [repeat split|]. split; [|split; [|split; [|split]]].
  - intros unit f [->| ->]; reflexivity.
  - intros parent unit f path [->| ->]; reflexivity.
  - intros ref. unfold Proto.convertAstToNavigationPath. simpl.
    apply Proto_walkReference_no_ordinal. constructor.
  - intros scope step n Hty Hidx Hpos.
    unfold Nav1.findPortion, Nav1.findPortionPhrase. rewrite Hty, Hidx. simpl.
    assert (H0 : (0 <=? n)%Z = true) by (apply Z.leb_le; lia).
    assert (H1 : (n =? 0)%Z = false) by (apply Z.eqb_neq; lia).
    now rewrite H0, H1.
  - intros scope n. reflexivity.
Qed.

Lemma C8_ordinals_one_based_until_navigation_witness :
  (Nav1.portionType (stepPhrase 2) = Some phrase
   /\ Nav1.index (stepPhrase 2) = Some 2%Z /\ (0 < 2)%Z)
  /\ Nav1.findPortion [threeSentences] (stepPhrase 2)
     = match JS.index (Nav1.splitSentences (Dom.text [threeSentences])) (2 - 1)
       with
       | Some _ => Ok [threeSentences]
       | None => Throw (Nav1.SentenceNotFound 2)
       end
  /\ (alinea = alinea \/ alinea = phrase)
  /\ Nav1.referenceToStep dernierAlinea = Ok stepDernierAlinea.
Proof.
  split; [repeat split; reflexivity|]. split.
  - exact (proj1 (proj2 (proj2 (proj2 (proj2
             C8_ordinals_one_based_until_navigation))))
             [threeSentences] (stepPhrase 2) 2%Z eq_refl eq_refl eq_refl).
  - split; [left; reflexivity|].
    exact (proj1 (proj2 C8_ordinals_one_based_until_navigation)
                 alinea
                 (mkAtom None (Some (lit "dernier")) (Some (-1)%Z) None)
                 (or_introl eq_refl)).
Defined.

(** ** C9: the span of a modification node *)

Import Guide Spans.














(** ** C4: batch extraction *)

Section GuideExtraction.

Variable chain : jsstring -> option (astNode * astNode * option astNode).

Lemma Guide_each_from_length items : forall n,
  List.length (Guide.each_from chain n items) = List.length items.
Proof.
  induction items as [|li items IH]; intros n; simpl; auto.
Qed.

Lemma Guide_each_from_nth items : forall n i li,
  nth_error items i = Some li ->
  nth_error (Guide.each_from chain n items) i
  = Some (Guide.extractItem chain (n + i) li).
Proof.
  induction items as [|x items IH]; intros n i li H.
  - destruct i; discriminate.
  - destruct i as [|i]; simpl in *.
    + injection H as ->. now rewrite Nat.add_0_r.
    + rewrite (IH (S n) i li H). f_equal. f_equal. lia.
Qed.

End GuideExtraction.

Section ProtoExtraction.

Variable reference_parser : jsstring -> option TextAstReference.
Variable action_parser : jsstring -> option TextAstAction.

Lemma Proto_forEach_app before : forall n after,
  Proto.forEach_from reference_parser action_parser n (before ++ after)
  = Proto.forEach_from reference_parser action_parser n before
    ++ Proto.forEach_from reference_parser action_parser
                          (n + List.length before) after.
Proof.
  induction before as [|x before IH]; intros n after; simpl.
  - now rewrite Nat.add_0_r.
  - simpl. rewrite IH, <- app_assoc.
    do 3 f_equal. lia.
Qed.

Lemma Proto_forEach_rawText items : forall n,
  map Proto.rawText (Proto.forEach_from reference_parser action_parser n items)
  = map textContent (filter hasArticleLink items).
Proof.
  induction items as [|li items IH]; intros n; simpl; auto.
  rewrite map_app, IH.
  unfold Proto.extractItem, hasArticleLink.
  destruct (descendants Proto.isArticleLink li); reflexivity.
Qed.

Lemma Proto_forEach_ast items : forall n b,
  In b (Proto.forEach_from reference_parser action_parser n items) ->
  Proto.ast b
  = Proto.parseModification reference_parser action_parser (Proto.rawText b).
Proof.
  induction items as [|li items IH]; intros n b H; simpl in H.
  - destruct H.
  - apply in_app_or in H.
    destruct H as [H|H]; [|eauto].
    unfold Proto.extractItem in H.
    destruct (descendants Proto.isArticleLink li); simpl in H.
    + destruct H.
    + destruct H as [<-|[]]. reflexivity.
Qed.

End ProtoExtraction.

Section StrategieExtraction.

Variable T : Type.
Variable parseText : jsstring -> option T.

Lemma Strategie_forEach_app before : forall n after,
  Strategie.forEach_from parseText n (before ++ after)
  = Strategie.forEach_from parseText n before
    ++ Strategie.forEach_from parseText (n + List.length before) after.
Proof.
  induction before as [|x before IH]; intros n after; simpl.
  - now rewrite Nat.add_0_r.
  - simpl. rewrite IH, <- app_assoc.
    do 3 f_equal. lia.
Qed.

Lemma Strategie_forEach_rawText items : forall n,
  map (@Strategie.rawText T) (Strategie.forEach_from parseText n items)
  = filter (fun t => isSome (parseText t)) (map textContent items).
Proof.
  induction items as [|li items IH]; intros n; simpl; auto.
  rewrite map_app, IH.
  unfold Strategie.extractItem.
  destruct (parseText (textContent li)); reflexivity.
Qed.

Lemma Strategie_forEach_ast items : forall n b,
  In b (Strategie.forEach_from parseText n items) ->
  parseText (Strategie.rawText b) = Some (Strategie.ast b).
Proof.
  induction items as [|li items IH]; intros n b H; simpl in H.
  - destruct H.
  - apply in_app_or in H.
    destruct H as [H|H]; [|eauto].
    unfold Strategie.extractItem in H.
    destruct (parseText (textContent li)) eqn:Hp; simpl in H.
    + destruct H as [<-|[]]. exact Hp.
    + destruct H.
Qed.

End StrategieExtraction.

(** C4 as stated fails on two of the three extractors.  The sample project
    has three blocks; the second does not parse and the third has no link
    to an article.  The sketch of part_001 returns two results, dropping
    the block that does not parse; the prototype returns two results,
    dropping the block without a link; only the extractor of part_000
    returns three. *)
Lemma C4_counterexample :
  List.length (descendants Strategie.isModificationItem project) = 3
  /\ map (@Strategie.id unit)
         (Strategie.extractModificationsFromProject sampleModification project)
     = [lit "mod-0"; lit "mod-2"]
  /\ map Proto.id
         (Proto.extractModificationsFromProject sampleReference sampleAction
                                                project)
     = [lit "mod-0"; lit "mod-1"]
  /\ map (fun b => (Guide.id b, isSome (Guide.ast b)))
         (Guide.extractModificationsFromProject sampleChain project)
     = [(lit "mod-0", true); (lit "mod-1", false); (lit "mod-2", true)].
Proof. repeat split; reflexivity. Qed.

(** C4, amended.  The three extractors keep the order of the blocks and
    compute the record of a block from that block and its index alone.
    - part_000: exactly one record per block, the i-th record being the
      one of the i-th block, with an absent [ast] when the chain fails;
    - the prototype: one record per block that has a link to an article,
      with an absent [ast] when [parseModification] gives null;
    - part_001: one record per block that parses.
    Replacing a block changes the records of no other block: the result on
    [before ++ li :: after] is the result on [before], then what [li]
    gives at its index, then the result on [after] at the indexes that
    follow. *)
Theorem C4_extraction_keeps_order_and_isolates_blocks
  (chain : jsstring -> option (astNode * astNode * option astNode))
  (reference_parser : jsstring -> option TextAstReference)
  (action_parser : jsstring -> option TextAstAction)
  (T : Type) (parseText : jsstring -> option T) (root : node) :
  (List.length (Guide.extractModificationsFromProject chain root)
   = List.length (descendants Guide.isModificationItem root)
   /\ forall i li,
        nth_error (descendants Guide.isModificationItem root) i = Some li ->
        exists b,
          nth_error (Guide.extractModificationsFromProject chain root) i
          = Some b
          /\ Guide.id b = lit "mod-" ++ String_of_nat i
          /\ Guide.rawText b = textContent li
          /\ Guide.ast b = Guide.modification chain (textContent li))
  /\ (map Proto.rawText
          (Proto.extractModificationsFromProject reference_parser
                                                 action_parser root)
      = map textContent
            (filter hasArticleLink (descendants Proto.isModificationItem root))
      /\ forall b,
           In b (Proto.extractModificationsFromProject reference_parser
                                                       action_parser root) ->
           Proto.ast b
           = Proto.parseModification reference_parser action_parser
                                     (Proto.rawText b))
  /\ (map (@Strategie.rawText T)
          (Strategie.extractModificationsFromProject parseText root)
      = filter (fun t => isSome (parseText t))
               (map textContent (descendants Strategie.isModificationItem root))
      /\ forall b,
           In b (Strategie.extractModificationsFromProject parseText root) ->
           parseText (Strategie.rawText b) = Some (Strategie.ast b))
  /\ (forall before li after,
         Proto.forEach_from reference_parser action_parser 0
                            (before ++ li :: after)
         = Proto.forEach_from reference_parser action_parser 0 before
           ++ Proto.extractItem reference_parser action_parser
                                (List.length before) li
           ++ Proto.forEach_from reference_parser action_parser
                                 (S (List.length before)) after)
  /\ (forall before li after,
         Strategie.forEach_from parseText 0 (before ++ li :: after)
         = Strategie.forEach_from parseText 0 before
           ++ Strategie.extractItem parseText (List.length before) li
           ++ Strategie.forEach_from parseText (S (List.length before)) after).
Proof.
  split; [|split; [|split; [|split]]].
  - split.
    + apply Guide_each_from_length.
    + intros i li H. eexists. split.
      * unfold Guide.extractModificationsFromProject.
        rewrite (Guide_each_from_nth chain _ 0 i H). reflexivity.
      * simpl. auto.
  - split.
    + apply Proto_forEach_rawText.
    + apply Proto_forEach_ast.
  - split.
    + apply Strategie_forEach_rawText.
    + apply Strategie_forEach_ast.
  - intros before li after.
    rewrite (Proto_forEach_app reference_parser action_parser before 0
                               (li :: after)).
    reflexivity.
  - intros before li after.
    rewrite (Strategie_forEach_app parseText before 0 (li :: after)).
    reflexivity.
Qed.

Lemma C4_extraction_keeps_order_and_isolates_blocks_witness :
  nth_error (descendants Guide.isModificationItem project) 1
  = Some (modificationItem
            [ TextNode (lit "Texte etranger a la grammaire de ");
              articleLink "https://x/LEGIARTI000002" "l'article 2" ])
  /\ exists b,
       nth_error (Guide.extractModificationsFromProject sampleChain project) 1
       = Some b
       /\ Guide.id b = lit "mod-" ++ String_of_nat 1
       /\ Guide.rawText b
          = textContent
              (modificationItem
                 [ TextNode (lit "Texte etranger a la grammaire de ");
                   articleLink "https://x/LEGIARTI000002" "l'article 2" ])
       /\ Guide.ast b
          = Guide.modification sampleChain
              (textContent
                 (modificationItem
                    [ TextNode (lit "Texte etranger a la grammaire de ");
                      articleLink "https://x/LEGIARTI000002" "l'article 2" ])).
Proof.
  split; [reflexivity|].
  exact (proj2 (proj1 (C4_extraction_keeps_order_and_isolates_blocks
                         sampleChain sampleReference sampleAction
                         sampleModification project))
               1 _ eq_refl).
Defined.

(* ================================================================== *)
(** * Properties of the rest of the code *)

(** ** The path compiler of the first navigator *)

(** [walkReference] pushes behind what the array holds. *)
Lemma Nav1_walkReference_accumulates ref : forall path,
  Nav1.walkReference ref path
  = (steps <- Nav1.walkReference ref [] ;; Ok (path ++ steps)).
Proof.
  induction ref as [t f|parent IHp child IHc|a _ b _|a _ b _|a _ c|a _ act];
    intros path;
    try (cbn [Nav1.walkReference]; destruct (Nav1.referenceToStep _);
         reflexivity).
  simpl. rewrite (IHp path).
  destruct (Nav1.walkReference parent []) as [pp|e]; simpl; auto.
  rewrite (IHc (path ++ pp)), (IHc pp).
  destruct (Nav1.walkReference child []) as [pc|e]; simpl; auto.
  now rewrite app_assoc.
Qed.

Lemma Nav1_referenceToStep_error leaf e :
  Nav1.referenceToStep leaf = Throw e ->
  e = Nav1.UnsupportedReferenceType leaf.
Proof.
  destruct leaf as [t f| | | | |]; simpl; try congruence.
  destruct t; simpl; congruence.
Qed.

Lemma Nav1_walkReference_leaves ref : forall path,
  Nav1.walkReference ref [] = Ok path <->
  Forall2 (fun leaf step => Nav1.referenceToStep leaf = Ok step)
          (leaves ref) path.
Proof.
  induction ref as [t f|parent IHp child IHc|a _ b _|a _ b _|a _ c|a _ act];
    intros path.
  2: { simpl. rewrite Nav1_walkReference_accumulates. split.
       - destruct (Nav1.walkReference parent []) as [pp|e] eqn:Hp;
           simpl; [|discriminate].
         rewrite Nav1_walkReference_accumulates.
         destruct (Nav1.walkReference child []) as [pc|e] eqn:Hc;
           simpl; [|discriminate].
         intros [= <-]. apply Forall2_app.
         + now apply IHp.
         + now apply IHc.
       - intros H. apply Forall2_app_inv_l in H.
         destruct H as (pp & pc & Hpp & Hpc & ->).
         apply IHp in Hpp. apply IHc in Hpc. rewrite Hpp. simpl.
         rewrite Nav1_walkReference_accumulates, Hpc. reflexivity. }
  all: cbn [leaves Nav1.walkReference];
    (split;
     [ destruct (Nav1.referenceToStep _) as [s|e] eqn:Hs; simpl;
       [intros [= <-]; repeat constructor; exact Hs | discriminate]
     | intros H; inversion H as [|? s ? l' Hs Hl]; subst;
       inversion Hl; subst; rewrite Hs; reflexivity ]).
Qed.

Lemma Nav1_walkReference_throws ref : forall e,
  Nav1.walkReference ref [] = Throw e ->
  exists leaf, In leaf (leaves ref)
               /\ Nav1.referenceToStep leaf = Throw e
               /\ e = Nav1.UnsupportedReferenceType leaf.
Proof.
  induction ref as [t f|parent IHp child IHc|a _ b _|a _ b _|a _ c|a _ act];
    intros e.
  2: { simpl. rewrite Nav1_walkReference_accumulates.
       destruct (Nav1.walkReference parent []) as [pp|e1] eqn:Hp; simpl.
       - rewrite Nav1_walkReference_accumulates.
         destruct (Nav1.walkReference child []) as [pc|e2] eqn:Hc;
           simpl; [discriminate|].
         intros [= <-]. destruct (IHc _ eq_refl) as (leaf & Hin & Hl).
         exists leaf. split; auto. apply in_or_app. now right.
       - intros [= <-]. destruct (IHp _ eq_refl) as (leaf & Hin & Hl).
         exists leaf. split; auto. apply in_or_app. now left. }
  all: cbn [leaves Nav1.walkReference];
    destruct (Nav1.referenceToStep _) as [s|e1] eqn:Hs; simpl;
    [discriminate|]; intros [= <-];
    eexists; split; [left; reflexivity|]; split; [exact Hs|];
    now apply Nav1_referenceToStep_error in Hs.
Qed.

(** X1.  [extractNavigationPath] succeeds exactly when each reference of
    the parent-child tree compiles, and then the path holds one step per
    reference, parents first; when it throws, the error carries a
    reference of the tree that has no navigation step. *)
Theorem X1_extractNavigationPath_one_step_per_leaf (ref : TextAstReference) :
  (forall path,
      Nav1.extractNavigationPath ref = Ok path <->
      Forall2 (fun leaf step => Nav1.referenceToStep leaf = Ok step)
              (leaves ref) path)
  /\ (forall e,
         Nav1.extractNavigationPath ref = Throw e ->
         exists leaf, In leaf (leaves ref)
                      /\ Nav1.referenceToStep leaf = Throw e
                      /\ e = Nav1.UnsupportedReferenceType leaf).
Proof.
  split.
  - apply Nav1_walkReference_leaves.
  - intros e H. now apply Nav1_walkReference_throws.
Qed.

Lemma X1_extractNavigationPath_one_step_per_leaf_witness :
  Nav1.extractNavigationPath MoreSamples.fullReference
  = Ok [ Nav1.mkStep Nav1.St_texte (Some (lit "CGI")) None None None None;
         Nav1.mkStep Nav1.St_article None (Some (lit "224")) None None None;
         stepII; stepDernierAlinea ]
  /\ Forall2 (fun leaf step => Nav1.referenceToStep leaf = Ok step)
       (leaves MoreSamples.fullReference)
       [ Nav1.mkStep Nav1.St_texte (Some (lit "CGI")) None None None None;
         Nav1.mkStep Nav1.St_article None (Some (lit "224")) None None None;
         stepII; stepDernierAlinea ].
Proof.
  split; [reflexivity|].
  exact (proj1 (proj1 (X1_extractNavigationPath_one_step_per_leaf
                         MoreSamples.fullReference) _) eq_refl).
Defined.

(** ** Navigation along a path *)

Lemma Nav1_navigateSteps_app path1 : forall scope path2,
  Nav1.navigateSteps scope (path1 ++ path2)
  = (scope1 <- Nav1.navigateSteps scope path1 ;;
     Nav1.navigateSteps scope1 path2).
Proof.
  induction path1 as [|s path1 IH]; intros scope path2; simpl; auto.
  destruct (Nav1.navigateStep scope s); simpl; auto.
Qed.

Lemma Proto_locate_from_app path1 : forall scope path2,
  Proto.locate_from scope (path1 ++ path2)
  = (scope1 <- Proto.locate_from scope path1 ;;
     Proto.locate_from scope1 path2).
Proof.
  induction path1 as [|s path1 IH]; intros scope path2; simpl; auto.
  destruct (Proto.navigateStep scope s); simpl; auto.
Qed.

Lemma Proto_walkReference_accumulates ref : forall st,
  Proto.walkReference ref st
  = (fst st ++ fst (Proto.walkReference ref ([], [])),
     snd st ++ snd (Proto.walkReference ref ([], []))).
Proof.
  induction ref as [t f|parent IHp child IHc|a IHa b _|a IHa b _|a IHa c
                   |a IHa act]; intros [steps console];
    try (simpl; exact (IHa (steps, console))).
  - destruct t; simpl; rewrite ?app_nil_r; reflexivity.
  - simpl. rewrite (IHc (Proto.walkReference parent (steps, console))).
    rewrite (IHc (Proto.walkReference parent ([], []))).
    rewrite (IHp (steps, console)). simpl. now rewrite !app_assoc.
Qed.

Lemma Proto_convert_ParentChild parent child :
  Proto.steps (Proto.convertAstToNavigationPath (ParentChild parent child))
  = Proto.steps (Proto.convertAstToNavigationPath parent)
    ++ Proto.steps (Proto.convertAstToNavigationPath child).
Proof.
  unfold Proto.convertAstToNavigationPath. simpl.
  now rewrite Proto_walkReference_accumulates.
Qed.

(** X2.  Resolving "child of parent" is resolving the parent and then the
    child inside what the parent gave: in the first navigator when both
    references compile, in the prototype always; an error of the parent is
    the error of the whole. *)
Theorem X2_parent_then_child (parent child : TextAstReference) :
  (forall pathParent pathChild scope,
      Nav1.extractNavigationPath parent = Ok pathParent ->
      Nav1.extractNavigationPath child = Ok pathChild ->
      Nav1.extractNavigationPath (ParentChild parent child)
      = Ok (pathParent ++ pathChild)
      /\ Nav1.navigateSteps scope (pathParent ++ pathChild)
         = (inner <- Nav1.navigateSteps scope pathParent ;;
            Nav1.navigateSteps inner pathChild))
  /\ (forall article,
         Proto.locate article
           (Proto.convertAstToNavigationPath (ParentChild parent child))
         = (inner <- Proto.locate article
                       (Proto.convertAstToNavigationPath parent) ;;
            Proto.locate inner (Proto.convertAstToNavigationPath child))).
Proof.
  split.
  - intros pp pc scope Hp Hc. split.
    + unfold Nav1.extractNavigationPath in *. simpl. rewrite Hp. simpl.
      rewrite Nav1_walkReference_accumulates, Hc. reflexivity.
    + apply Nav1_navigateSteps_app.
  - intros article. unfold Proto.locate.
    rewrite Proto_convert_ParentChild. apply Proto_locate_from_app.
Qed.

Lemma X2_parent_then_child_witness :
  Nav1.extractNavigationPath itemII = Ok [stepII]
  /\ Nav1.extractNavigationPath dernierAlinea = Ok [stepDernierAlinea]
  /\ Nav1.extractNavigationPath (ParentChild itemII dernierAlinea)
     = Ok ([stepII] ++ [stepDernierAlinea])
  /\ Nav1.navigateSteps [fourBlocks] ([stepII] ++ [stepDernierAlinea])
     = (inner <- Nav1.navigateSteps [fourBlocks] [stepII] ;;
        Nav1.navigateSteps inner [stepDernierAlinea]).
Proof.
  split; [reflexivity|]. split; [reflexivity|].
  exact (proj1 (X2_parent_then_child itemII dernierAlinea)
               [stepII] [stepDernierAlinea] [fourBlocks] eq_refl eq_refl).
Defined.

Lemma Nav1_navigateStep_idle scope step :
  looksAtDocument step = false -> Nav1.navigateStep scope step = Ok scope.
Proof.
  unfold looksAtDocument, Nav1.navigateStep.
  destruct (Nav1.type step); auto; discriminate.
Qed.

(** X3.  Steps for a text or an article never change the scope and never
    fail: a path resolves as the path without them, so the article number
    and the text identifier of a reference are never compared with the
    document, in either navigator. *)
Theorem X3_text_and_article_steps_are_skipped :
  (forall path scope,
      Nav1.navigateSteps scope path
      = Nav1.navigateSteps scope (filter looksAtDocument path))
  /\ (forall path scope,
         Proto.locate_from scope path
         = Proto.locate_from scope (filter protoLooksAtDocument path)).
Proof.
  split.
  - induction path as [|s path IH]; intros scope; simpl; auto.
    destruct (looksAtDocument s) eqn:Hs; simpl.
    + destruct (Nav1.navigateStep scope s); simpl; auto.
    + rewrite (Nav1_navigateStep_idle scope s Hs). simpl. apply IH.
  - induction path as [|s path IH]; intros scope; simpl; auto.
    unfold protoLooksAtDocument at 1. unfold Proto.navigateStep.
    destruct (Proto.type s) eqn:Hs; simpl.
    + apply IH.
    + unfold Proto.navigateStep. rewrite Hs.
      destruct (Proto.findDivision scope s); simpl; auto.
    + unfold Proto.navigateStep. rewrite Hs.
      destruct (Proto.findPortion scope s); simpl; auto.
Qed.

(** ** Portion steps of the prototype *)

Lemma Proto_locate_from_needs_relative path : forall scope r,
  Forall (fun s => Proto.ordinal s = None) path ->
  Proto.locate_from scope path = Ok r ->
  Forall (fun s => Proto.type s = Proto.St_portion
                   -> exists k, Proto.relative s = Some k) path.
Proof.
  induction path as [|s path IH]; intros scope r Hord H; constructor.
  - intros Hty. inversion Hord as [|? ? Hs _]; subst. simpl in H.
    unfold Proto.navigateStep, Proto.findPortion in H. rewrite Hty, Hs in H.
    destruct (Proto.relative s) as [k|]; [eauto|discriminate].
  - inversion Hord; subst. simpl in H.
    destruct (Proto.navigateStep scope s) as [scope1|e]; [|discriminate].
    eapply IH; eauto.
Qed.

(** X4.  The prototype never resolves a portion by its ordinal: the
    compiler leaves [ordinal] undefined in every step, so whenever [locate]
    succeeds on a compiled path each portion step of the path (an alinea,
    a phrase or an item) had a [relative]; a portion without one makes
    [locate] throw. *)
Theorem X4_compiled_portions_resolve_by_relative_only
  (ref : TextAstReference) (article found : node) :
  Proto.locate article (Proto.convertAstToNavigationPath ref) = Ok found ->
  Forall (fun s => Proto.type s = Proto.St_portion
                   -> exists k, Proto.relative s = Some k)
         (Proto.steps (Proto.convertAstToNavigationPath ref)).
Proof.
  intros H. eapply Proto_locate_from_needs_relative; [|exact H].
  unfold Proto.convertAstToNavigationPath. simpl.
  apply Proto_walkReference_no_ordinal. constructor.
Qed.

Lemma X4_compiled_portions_resolve_by_relative_only_witness :
  Proto.locate threeBlocks
    (Proto.convertAstToNavigationPath (MoreSamples.alineaRelative 1))
  = Ok (p "B")
  /\ Forall (fun s => Proto.type s = Proto.St_portion
                      -> exists k, Proto.relative s = Some k)
       (Proto.steps
          (Proto.convertAstToNavigationPath (MoreSamples.alineaRelative 1))).
Proof.
  split; [reflexivity|].
  exact (@X4_compiled_portions_resolve_by_relative_only
           (MoreSamples.alineaRelative 1) threeBlocks (p "B") eq_refl).
Defined.

(** X5.  In [findPortion] of the prototype a defined [relative] is taken
    as the index among the paragraphs of the scope, whatever the ordinal:
    a negative one always throws, naming that index, and so does one that
    reaches the number of paragraphs. *)
Theorem X5_relative_is_an_absolute_index
  (scope : node) (step : Proto.NavigationStep) (r : Z) :
  Proto.relative step = Some r ->
  Proto.findPortion scope step
  = match JS.index (descendants (hasTag "p") scope) r with
    | Some b => Ok b
    | None => Throw (Proto.PortionAtIndexNotFound r)
    end
  /\ ((r < 0)%Z \/ (Z.of_nat (List.length (descendants (hasTag "p") scope))
                    <= r)%Z
      -> Proto.findPortion scope step
         = Throw (Proto.PortionAtIndexNotFound r)).
Proof.
  intros Hr.
  assert (H : Proto.findPortion scope step
              = match JS.index (descendants (hasTag "p") scope) r with
                | Some b => Ok b
                | None => Throw (Proto.PortionAtIndexNotFound r)
                end).
  { unfold Proto.findPortion. now rewrite Hr. }
  split; [exact H|]. intros [Hneg|Hbig]; rewrite H.
  - now rewrite index_negative.
  - now rewrite index_out_of_range.
Qed.

Lemma X5_relative_is_an_absolute_index_witness :
  Proto.relative (Proto.mkStep Proto.St_portion None (Some Proto.o_last)
                               (Some (-1)%Z))
  = Some (-1)%Z
  /\ Proto.findPortion threeBlocks
       (Proto.mkStep Proto.St_portion None (Some Proto.o_last) (Some (-1)%Z))
     = Throw (Proto.PortionAtIndexNotFound (-1)).
Proof.
  split; [reflexivity|].
  refine (proj2 (@X5_relative_is_an_absolute_index threeBlocks
                   (Proto.mkStep Proto.St_portion None (Some Proto.o_last)
                                 (Some (-1)%Z)) (-1)%Z eq_refl) _).
  left. reflexivity.
Defined.

(** ** When a division step fails *)

(** X6.  [findDivision] of the prototype throws exactly when no paragraph
    of the scope shows a surface form of the identifier, and the error
    names the identifier; with an undefined or empty identifier there is no
    surface form and it always throws. *)
Theorem X6_prototype_division_failure
  (scope : node) (step : Proto.NavigationStep) :
  (forall e,
      Proto.findDivision scope step = Throw e <->
      e = Proto.DivisionNotFound (Proto.identifier step)
      /\ forall b, In b (descendants (hasTag "p") scope) ->
           ~ showsForm (Proto.getDivisionPatterns (Proto.identifier step)) b)
  /\ (Proto.identifier step = None \/ Proto.identifier step = Some [] ->
      Proto.findDivision scope step
      = Throw (Proto.DivisionNotFound (Proto.identifier step))).
Proof.
  assert (Hiff : forall e,
      Proto.findDivision scope step = Throw e <->
      e = Proto.DivisionNotFound (Proto.identifier step)
      /\ forall b, In b (descendants (hasTag "p") scope) ->
           ~ showsForm (Proto.getDivisionPatterns (Proto.identifier step)) b).
  { intros e. unfold Proto.findDivision.
    destruct (find _ _) as [b|] eqn:Hfind.
    - split; [discriminate|]. intros [_ Hnone]. exfalso.
      apply find_some in Hfind. destruct Hfind as [Hin Hm].
      apply (Hnone b Hin). now apply Proto_matchesDivision_spec.
    - split.
      + intros [= <-]. split; auto. intros b Hb.
        apply (not_showsForm_false _ (Proto_matchesDivision_spec _)).
        exact (find_none _ _ Hfind b Hb).
      + now intros [-> _]. }
  split; [exact Hiff|].
  intros Hid. apply Hiff. split; auto.
  intros b _ (pattern & Hin & _).
  destruct Hid as [Hid|Hid]; rewrite Hid in Hin; destruct Hin.
Qed.

Lemma X6_prototype_division_failure_witness :
  (Proto.identifier (Proto.mkStep Proto.St_division None None None) = None
   \/ Proto.identifier (Proto.mkStep Proto.St_division None None None)
      = Some [])
  /\ Proto.findDivision fourBlocks
       (Proto.mkStep Proto.St_division None None None)
     = Throw (Proto.DivisionNotFound None).
Proof.
  split; [left; reflexivity|].
  exact (proj2 (X6_prototype_division_failure fourBlocks
                  (Proto.mkStep Proto.St_division None None None))
               (or_introl eq_refl)).
Defined.

(** X7.  [findDivision] of the first navigator throws exactly when the
    step has no non-negative index and either no marker or a marker that
    no paragraph of the scope shows; the error carries the step. *)
Theorem X7_first_navigator_division_failure
  (scope : selection) (step : Nav1.NavigationStep) (e : Nav1.error) :
  Nav1.findDivision scope step = Throw e <->
  e = Nav1.DivisionNotFound step
  /\ (Nav1.index step = None
      \/ exists i, Nav1.index step = Some i /\ (i < 0)%Z)
  /\ (Nav1.truthy (Nav1.num step) = false
      \/ exists marker,
           Nav1.num step = Some marker
           /\ forall b, In b (findAll "p" scope) ->
                ~ showsForm (Nav1.getDivisionPatterns marker) b).
Proof.
  unfold Nav1.findDivision. split.
  - intros H.
    assert (He : e = Nav1.DivisionNotFound step).
    { apply (Nav1_findDivision_error scope step). exact H. }
    split; [exact He|].
    destruct (Nav1.truthy (Nav1.num step)) eqn:Htr.
    + destruct (Nav1.num step) as [marker|] eqn:Hnum; [|discriminate].
      destruct (find _ _) as [b|] eqn:Hfind; [discriminate|].
      split.
      * destruct (Nav1.index step) as [i|]; auto.
        destruct (0 <=? i)%Z eqn:Hpos; [discriminate|].
        right. exists i. split; auto. apply Z.leb_gt in Hpos. lia.
      * right. exists marker. split; auto. intros b Hb.
        apply (not_showsForm_false _ (Nav1_matchesDivision_spec _)).
        exact (find_none _ _ Hfind b Hb).
    + split; auto.
      destruct (Nav1.index step) as [i|]; auto.
      destruct (0 <=? i)%Z eqn:Hpos; [discriminate|].
      right. exists i. split; auto. apply Z.leb_gt in Hpos. lia.
  - intros (-> & Hidx & Hnum).
    assert (Hfind : (if Nav1.truthy (Nav1.num step)
                     then find (Nav1.matchesDivision
                                  (Nav1.getDivisionPatterns
                                     match Nav1.num step with
                                     | Some n => n
                                     | None => []
                                     end)) (findAll "p" scope)
                     else None) = None).
    { destruct Hnum as [->|(marker & Hm & Hnone)]; auto.
      rewrite Hm. destruct (Nav1.truthy (Some marker)); auto.
      apply find_none_iff. intros b Hb.
      apply (not_showsForm_false _ (Nav1_matchesDivision_spec _)); auto. }
    rewrite Hfind.
    destruct Hidx as [->|(i & -> & Hneg)]; auto.
    assert (Hpos : (0 <=? i)%Z = false) by (apply Z.leb_gt; lia).
    now rewrite Hpos.
Qed.

Lemma X7_first_navigator_division_failure_witness :
  Nav1.findDivision [fourBlocks] stepIX = Throw (Nav1.DivisionNotFound stepIX)
  /\ (Nav1.index stepIX = None
      \/ exists i, Nav1.index stepIX = Some i /\ (i < 0)%Z).
Proof.
  assert (H : Nav1.findDivision [fourBlocks] stepIX
              = Throw (Nav1.DivisionNotFound stepIX)) by reflexivity.
  split; [exact H|].
  exact (proj1 (proj2 (proj1 (X7_first_navigator_division_failure
                                [fourBlocks] stepIX
                                (Nav1.DivisionNotFound stepIX)) H))).
Defined.

(** ** Portion steps of the first navigator *)

(** X8.  A paragraph step for the last paragraph (num "dernier", whatever
    its index, or index -1) never throws: it selects the last paragraph of
    the scope, and the empty selection when the scope has no paragraph. *)
Theorem X8_last_paragraph_never_throws
  (scope : selection) (step : Nav1.NavigationStep) :
  Nav1.portionType step = Some alinea ->
  Nav1.isDernier (Nav1.num step) = true \/ Nav1.index step = Some (-1)%Z ->
  (findAll "p" scope = [] -> Nav1.findPortion scope step = Ok [])
  /\ (forall before b,
         findAll "p" scope = before ++ [b] ->
         Nav1.findPortion scope step = Ok [b]).
Proof.
  intros Hty Hlast.
  assert (H : Nav1.findPortion scope step
              = Ok (wrap (JS.index (findAll "p" scope)
                            (Z.of_nat (List.length (findAll "p" scope)) - 1)))).
  { unfold Nav1.findPortion. rewrite Hty. simpl.
    destruct Hlast as [Hd|Hi].
    - now rewrite Hd.
    - rewrite Hi. simpl. now rewrite orb_true_r. }
  split.
  - intros Hnil. rewrite H, Hnil. reflexivity.
  - intros before b Hl. rewrite H, Hl, index_last. reflexivity.
Qed.

Lemma X8_last_paragraph_never_throws_witness :
  Nav1.portionType stepDernierAlinea = Some alinea
  /\ (Nav1.isDernier (Nav1.num stepDernierAlinea) = true
      \/ Nav1.index stepDernierAlinea = Some (-1)%Z)
  /\ findAll "p" [threeBlocks] = [p "A"; p "B"] ++ [p "C"]
  /\ Nav1.findPortion [threeBlocks] stepDernierAlinea = Ok [p "C"].
Proof.
  split; [reflexivity|]. split; [left; reflexivity|]. split; [reflexivity|].
  exact (proj2 (@X8_last_paragraph_never_throws [threeBlocks]
                  stepDernierAlinea eq_refl (or_introl eq_refl))
               [p "A"; p "B"] (p "C") eq_refl).
Defined.

(** X9.  Counting from the end is only known for the last paragraph: a
    paragraph step with an index below -1 (and a num other than "dernier"),
    a sentence step with any negative index, -1 included, and a portion
    step without index throw "Portion not found", whatever the scope. *)
Theorem X9_other_negative_indexes_throw
  (scope : selection) (step : Nav1.NavigationStep) :
  Nav1.isDernier (Nav1.num step) = false ->
  (Nav1.portionType step = Some alinea
   /\ (Nav1.index step = None
       \/ exists i, Nav1.index step = Some i /\ (i < -1)%Z))
  \/ (Nav1.portionType step = Some phrase
      /\ (Nav1.index step = None
          \/ exists i, Nav1.index step = Some i /\ (i < 0)%Z)) ->
  Nav1.findPortion scope step = Throw (Nav1.PortionNotFound step).
Proof.
  intros Hnum [[Hty Hidx]|[Hty Hidx]];
    unfold Nav1.findPortion, Nav1.findPortionPhrase; rewrite Hty; simpl.
  - rewrite Hnum. destruct Hidx as [->|(i & -> & Hi)]; auto. simpl.
    assert (H1 : (i =? -1)%Z = false) by (apply Z.eqb_neq; lia).
    assert (H0 : (0 <=? i)%Z = false) by (apply Z.leb_gt; lia).
    now rewrite H1, H0.
  - destruct Hidx as [->|(i & -> & Hi)]; auto.
    assert (H0 : (0 <=? i)%Z = false) by (apply Z.leb_gt; lia).
    now rewrite H0.
Qed.

Lemma X9_other_negative_indexes_throw_witness :
  Nav1.isDernier (Nav1.num (stepPhrase (-1))) = false
  /\ Nav1.portionType (stepPhrase (-1)) = Some phrase
  /\ Nav1.findPortion [threeSentences] (stepPhrase (-1))
     = Throw (Nav1.PortionNotFound (stepPhrase (-1))).
Proof.
  split; [reflexivity|]. split; [reflexivity|].
  refine (@X9_other_negative_indexes_throw [threeSentences] (stepPhrase (-1))
            eq_refl _).
  right. split; [reflexivity|]. right. exists (-1)%Z.
  split; [reflexivity|reflexivity].
Defined.

(** X10.  A sentence step takes the indexes 0 and 1 for the same, first,
    sentence: it succeeds with index 0 exactly when it succeeds with index
    1, that is when the text of the scope has a sentence at all. *)
Theorem X10_sentence_zero_is_sentence_one (scope : selection) :
  (Nav1.findPortion scope (stepPhrase 0) = Ok scope
   <-> Nav1.findPortion scope (stepPhrase 1) = Ok scope)
  /\ (Nav1.findPortion scope (stepPhrase 0) = Ok scope
      <-> Nav1.splitSentences (Dom.text scope) <> [])
  /\ (Nav1.splitSentences (Dom.text scope) = []
      -> Nav1.findPortion scope (stepPhrase 0)
         = Throw (Nav1.SentenceNotFound 0)
         /\ Nav1.findPortion scope (stepPhrase 1)
            = Throw (Nav1.SentenceNotFound 1)).
Proof.
  unfold Nav1.findPortion, Nav1.findPortionPhrase. simpl.
  unfold JS.index. simpl.
  destruct (Nav1.splitSentences (Dom.text scope)) as [|s l]; simpl.
  - repeat split; try discriminate; try congruence.
  - repeat split; auto; try discriminate.
Qed.

Lemma X10_sentence_zero_is_sentence_one_witness :
  Nav1.splitSentences (Dom.text [p "   "]) = []
  /\ Nav1.findPortion [p "   "] (stepPhrase 0)
     = Throw (Nav1.SentenceNotFound 0)
  /\ Nav1.findPortion [p "   "] (stepPhrase 1)
     = Throw (Nav1.SentenceNotFound 1).
Proof.
  split; [reflexivity|].
  exact (proj2 (proj2 (X10_sentence_zero_is_sentence_one [p "   "]))
               eq_refl).
Defined.

(** ** Sentences *)

Lemma split_go_no_break s : forall acc,
  hasBreak s = false -> split_go false acc s = [rev acc ++ s].
Proof.
  induction s as [|c s IH]; intros acc H; simpl.
  - now rewrite app_nil_r.
  - simpl in H. apply orb_false_iff in H. destruct H as [Hc Hs].
    rewrite Hc. rewrite (IH (c :: acc) Hs). simpl.
    now rewrite <- app_assoc.
Qed.

(** X11.  A text in which no terminal character (. ! ?) is followed by a
    white space is one sentence, kept as it is with its final punctuation;
    a blank text has no sentence. *)
Theorem X11_text_without_break_is_one_sentence (text : jsstring) :
  hasBreak text = false ->
  (trim text <> [] -> Nav1.splitSentences text = [text])
  /\ (trim text = [] -> Nav1.splitSentences text = []).
Proof.
  intros H. unfold Nav1.splitSentences, splitTerminal.
  rewrite (split_go_no_break text [] H). simpl.
  split; intros Ht.
  - destruct (trim text); [congruence|reflexivity].
  - now rewrite Ht.
Qed.

Lemma X11_text_without_break_is_one_sentence_witness :
  hasBreak (lit "Dernier alinea.") = false
  /\ trim (lit "Dernier alinea.") <> []
  /\ Nav1.splitSentences (lit "Dernier alinea.") = [lit "Dernier alinea."].
Proof.
  split; [reflexivity|].
  assert (Ht : trim (lit "Dernier alinea.") <> []) by discriminate.
  split; [exact Ht|].
  exact (proj1 (@X11_text_without_break_is_one_sentence
                  (lit "Dernier alinea.") eq_refl) Ht).
Defined.

Lemma split_go_pieces s : forall skipping acc before piece,
  (skipping = true -> acc = []) ->
  In piece (split_go skipping acc s) ->
  exists a b, before ++ rev acc ++ s = a ++ piece ++ b.
Proof.
  induction s as [|c s IH]; intros skipping acc before piece Hacc Hin;
    simpl in Hin.
  - destruct Hin as [<-|[]]. exists before, []. reflexivity.
  - destruct (skipping && isWhitespace c) eqn:Hskip.
    + apply andb_true_iff in Hskip. destruct Hskip as [-> _].
      rewrite (Hacc eq_refl) in *.
      destruct (IH true [] (before ++ [c]) piece (fun _ => eq_refl) Hin)
        as (a & b & Hab).
      exists a, b. rewrite <- Hab. simpl. now rewrite <- app_assoc.
    + destruct (isTerminal c
                && match s with d :: _ => isWhitespace d | [] => false end).
      * destruct Hin as [<-|Hin].
        -- exists before, (c :: s). reflexivity.
        -- destruct (IH true [] (before ++ rev acc ++ [c]) piece
                        (fun _ => eq_refl) Hin) as (a & b & Hab).
           exists a, b. rewrite <- Hab. simpl.
           now rewrite <- !app_assoc.
      * destruct (IH false (c :: acc) before piece
                     (fun H => ltac:(discriminate H)) Hin) as (a & b & Hab).
        exists a, b. rewrite <- Hab. simpl. now rewrite <- !app_assoc.
Qed.

(** X12.  Every sentence [splitSentences] returns is a piece of the text,
    taken as it stands, and is not blank. *)
Theorem X12_sentences_are_pieces_of_the_text (text sentence : jsstring) :
  In sentence (Nav1.splitSentences text) ->
  trim sentence <> []
  /\ exists before after, text = before ++ sentence ++ after.
Proof.
  unfold Nav1.splitSentences. intros H. apply filter_In in H.
  destruct H as [Hin Hblank]. split.
  - intros Ht. rewrite Ht in Hblank. discriminate.
  - destruct (@split_go_pieces text false [] [] sentence
                (fun H => ltac:(discriminate H)) Hin) as (a & b & Hab).
    exists a, b. exact Hab.
Qed.

Lemma X12_sentences_are_pieces_of_the_text_witness :
  In (lit "Premiere phrase")
     (Nav1.splitSentences
        (lit "Premier alinea. Premiere phrase. Seconde phrase."))
  /\ trim (lit "Premiere phrase") <> []
  /\ exists before after,
       lit "Premier alinea. Premiere phrase. Seconde phrase."
       = before ++ lit "Premiere phrase" ++ after.
Proof.
  assert (Hin : In (lit "Premiere phrase")
                   (Nav1.splitSentences
                      (lit "Premier alinea. Premiere phrase. Seconde phrase."))).
  { right. left. reflexivity. }
  split; [exact Hin|].
  exact (X12_sentences_are_pieces_of_the_text _ _ Hin).
Defined.

(** ** Strings *)

Lemma startsWith_spec text pattern :
  startsWith text pattern = true <-> exists rest, text = pattern ++ rest.
Proof.
  revert text. induction pattern as [|c pattern IH]; intros text; simpl.
  - split; [intros _; exists text; reflexivity|].
    intros _. destruct text; reflexivity.
  - destruct text as [|d text].
    + split; [discriminate|]. intros (rest & H). discriminate.
    + simpl. unfold char_eqb. rewrite andb_true_iff, N.eqb_eq, IH. split.
      * intros (-> & rest & ->). exists rest. reflexivity.
      * intros (rest & [= -> ->]). split; [reflexivity|].
        exists rest. reflexivity.
Qed.

Lemma startsWith_app_true text pattern more :
  startsWith text (pattern ++ more) = true -> startsWith text pattern = true.
Proof.
  rewrite !startsWith_spec. intros (rest & ->).
  exists (more ++ rest). now rewrite app_assoc.
Qed.

Lemma trimStart_whitespace ws s :
  forallb isWhitespace ws = true -> trimStart (ws ++ s) = trimStart s.
Proof.
  induction ws as [|c ws IH]; simpl; auto.
  intros H. apply andb_true_iff in H. destruct H as [Hc Hws].
  rewrite Hc. auto.
Qed.

Lemma trimStart_nil_whitespace s :
  trimStart s = [] -> forallb isWhitespace s = true.
Proof.
  induction s as [|c s IH]; simpl; auto.
  destruct (isWhitespace c); [auto|discriminate].
Qed.

Lemma trimStart_app s ws :
  trimStart s <> [] -> trimStart (s ++ ws) = trimStart s ++ ws.
Proof.
  induction s as [|c s IH]; simpl; [congruence|].
  destruct (isWhitespace c); auto.
Qed.

Lemma trimEnd_whitespace s ws :
  forallb isWhitespace ws = true -> trimEnd (s ++ ws) = trimEnd s.
Proof.
  intros H. unfold trimEnd. rewrite rev_app_distr.
  rewrite trimStart_whitespace; auto.
  rewrite forallb_forall in *. intros x Hx. apply H. now apply in_rev.
Qed.

Lemma trim_surrounding_whitespace ws1 s ws2 :
  forallb isWhitespace ws1 = true -> forallb isWhitespace ws2 = true ->
  trim (ws1 ++ s ++ ws2) = trim s.
Proof.
  intros H1 H2. unfold trim. rewrite trimStart_whitespace by exact H1.
  destruct (trimStart s) as [|c t] eqn:Hs.
  - apply trimStart_nil_whitespace in Hs.
    assert (Hall : forallb isWhitespace (s ++ ws2) = true).
    { rewrite forallb_app, Hs, H2. reflexivity. }
    rewrite <- (app_nil_r (s ++ ws2)).
    rewrite trimStart_whitespace by exact Hall. reflexivity.
  - rewrite trimStart_app by (rewrite Hs; discriminate).
    rewrite Hs. now apply trimEnd_whitespace.
Qed.

(** ** What makes a paragraph show a marker *)

Lemma shows_by_suffix text num :
  existsb (fun pattern => startsWith text pattern)
          (Nav1.getDivisionPatterns num)
  = existsb (fun suffix => startsWith text (num ++ suffix)) decidingSuffixes.
Proof.
  unfold Nav1.getDivisionPatterns, decidingSuffixes.
  cbn [existsb]. rewrite !orb_false_r.
  assert (H1 : startsWith text (num ++ lit ".-") = true
               -> startsWith text (num ++ lit ".") = true).
  { change (lit ".-") with (lit "." ++ lit "-").
    rewrite app_assoc. apply startsWith_app_true. }
  assert (H2 : startsWith text (num ++ lit ". -") = true
               -> startsWith text (num ++ lit ".") = true).
  { change (lit ". -") with (lit "." ++ lit " -").
    rewrite app_assoc. apply startsWith_app_true. }
  destruct (startsWith text (num ++ lit ".-"));
    destruct (startsWith text (num ++ lit ". -"));
    destruct (startsWith text (num ++ lit "."));
    destruct (startsWith text (num ++ lit " -"));
    try reflexivity;
    try (discriminate (H1 eq_refl)); try (discriminate (H2 eq_refl)).
Qed.

(** X13.  Whether a paragraph shows a marker is decided on its text
    without the white space around it, and by four suffixes only: the
    paragraph matches when its trimmed text starts with the marker followed
    by " -", ".", the degree sign or ")"; the patterns ".-" and ". -" add
    nothing to ".". *)
Theorem X13_marker_match_by_four_suffixes
  (num ws1 text ws2 : jsstring) (tag : string)
  (attrs : list (string * jsstring)) :
  forallb isWhitespace ws1 = true -> forallb isWhitespace ws2 = true ->
  Nav1.matchesDivision (Nav1.getDivisionPatterns num)
    (Element tag attrs [TextNode (ws1 ++ text ++ ws2)])
  = existsb (fun suffix => startsWith (trim text) (num ++ suffix))
            decidingSuffixes.
Proof.
  intros H1 H2. unfold Nav1.matchesDivision. simpl textContent.
  rewrite app_nil_r, trim_surrounding_whitespace by assumption.
  apply shows_by_suffix.
Qed.

Lemma X13_marker_match_by_four_suffixes_witness :
  forallb isWhitespace (lit "  ") = true
  /\ forallb isWhitespace (lit " ") = true
  /\ Nav1.matchesDivision (Nav1.getDivisionPatterns (lit "II"))
       (Element "p" [] [TextNode (lit "  " ++ lit "II.- Deuxieme" ++ lit " ")])
     = existsb (fun suffix =>
                  startsWith (trim (lit "II.- Deuxieme")) (lit "II" ++ suffix))
               decidingSuffixes.
Proof.
  split; [reflexivity|]. split; [reflexivity|].
  exact (@X13_marker_match_by_four_suffixes (lit "II") (lit "  ")
           (lit "II.- Deuxieme") (lit " ") "p" [] eq_refl eq_refl).
Defined.

(** ** The two navigators on a division step *)

Lemma Proto_patterns_among_Nav1 marker pattern :
  In pattern (Proto.getDivisionPatterns (Some marker)) ->
  In pattern (Nav1.getDivisionPatterns marker).
Proof.
  destruct marker as [|c marker]; [intros []|].
  unfold Proto.getDivisionPatterns, Nav1.getDivisionPatterns.
  simpl. intuition.
Qed.

Lemma Proto_shows_then_Nav1_shows marker b :
  Proto.matchesDivision (Proto.getDivisionPatterns (Some marker)) b = true ->
  Nav1.matchesDivision (Nav1.getDivisionPatterns marker) b = true.
Proof.
  rewrite Proto_matchesDivision_spec, Nav1_matchesDivision_spec.
  intros (pattern & Hin & Hs). exists pattern. split; auto.
  now apply Proto_patterns_among_Nav1.
Qed.

Lemma find_agree {A} (f g : A -> bool) (l : list A) :
  (forall x, In x l -> f x = g x) -> find f l = find g l.
Proof.
  induction l as [|a l IH]; intros H; simpl; auto.
  rewrite (H a (or_introl eq_refl)).
  destruct (g a); auto. apply IH. intros x Hx. apply H. now right.
Qed.

Lemma Nav1_matches_Proto_or_parenthesis c marker b :
  Nav1.matchesDivision (Nav1.getDivisionPatterns (c :: marker)) b
  = Proto.matchesDivision (Proto.getDivisionPatterns (Some (c :: marker))) b
    || startsWith (trim (textContent b)) ((c :: marker) ++ lit ")").
Proof.
  unfold Nav1.matchesDivision, Proto.matchesDivision.
  change (Nav1.getDivisionPatterns (c :: marker))
    with (Proto.getDivisionPatterns (Some (c :: marker))
          ++ [(c :: marker) ++ lit ")"]).
  rewrite existsb_app. f_equal. cbn [existsb]. apply orb_false_r.
Qed.

(** X14.  On a division step the first navigator selects what the
    prototype selects: when the prototype finds the paragraph of a marker
    and no paragraph of the scope starts with the marker followed by ")",
    the first navigator, given the body as scope, returns the same
    paragraph, whatever the index of its step. *)
Theorem X14_navigators_agree_on_divisions
  (scope found : node) (marker : jsstring)
  (step1 : Nav1.NavigationStep) (step2 : Proto.NavigationStep) :
  Nav1.num step1 = Some marker ->
  Proto.identifier step2 = Some marker ->
  (forall b, In b (descendants (hasTag "p") scope) ->
     startsWith (trim (textContent b)) (marker ++ lit ")") = false) ->
  Proto.findDivision scope step2 = Ok found ->
  Nav1.findDivision [scope] step1 = Ok [found].
Proof.
  intros Hnum Hid Hparen H.
  unfold Proto.findDivision in H. rewrite Hid in H.
  destruct marker as [|c marker].
  { destruct (find _ _) as [b|] eqn:Hfind; [|discriminate].
    apply find_some in Hfind. destruct Hfind as [_ Hm].
    unfold Proto.matchesDivision in Hm. simpl in Hm. discriminate Hm. }
  destruct (find _ _) as [b|] eqn:Hfind; [|discriminate].
  injection H as ->.
  unfold Nav1.findDivision. rewrite Hnum.
  cbv beta iota zeta delta [Nav1.truthy].
  unfold findAll. cbn [flat_map]. rewrite app_nil_r.
  rewrite (@find_agree _
             (Nav1.matchesDivision (Nav1.getDivisionPatterns (c :: marker)))
             (Proto.matchesDivision
                (Proto.getDivisionPatterns (Some (c :: marker))))).
  - assert (Hfind' : find (Proto.matchesDivision
                             (Proto.getDivisionPatterns (Some (c :: marker))))
                          (descendants (hasTag "p") scope) = Some found)
      by exact Hfind.
    now rewrite Hfind'.
  - intros x Hx. rewrite Nav1_matches_Proto_or_parenthesis.
    rewrite (Hparen x Hx). apply orb_false_r.
Qed.

Lemma X14_navigators_agree_on_divisions_witness :
  Nav1.num stepII = Some (lit "II")
  /\ Proto.identifier protoDivisionII = Some (lit "II")
  /\ Proto.findDivision fourBlocks protoDivisionII
     = Ok (p "II.- Deuxieme section")
  /\ Nav1.findDivision [fourBlocks] stepII = Ok [p "II.- Deuxieme section"].
Proof.
  split; [reflexivity|]. split; [reflexivity|]. split; [reflexivity|].
  refine (@X14_navigators_agree_on_divisions fourBlocks
            (p "II.- Deuxieme section") (lit "II") stepII protoDivisionII
            eq_refl eq_refl _ eq_refl).
  intros b Hb. simpl in Hb.
  repeat (destruct Hb as [<-|Hb]; [reflexivity|]). destruct Hb.
Defined.

(** ** Article identifiers *)

Lemma takeDigits_spec s :
  exists post,
    s = takeDigits s ++ post
    /\ forallb isDigit (takeDigits s) = true
    /\ notDigitFirst post = true.
Proof.
  induction s as [|c s (post & Hs & Hd & Hp)]; simpl.
  - exists []. auto.
  - destruct (isDigit c) eqn:Hc.
    + exists post. simpl. rewrite Hc, Hd. repeat split; auto. congruence.
    + exists (c :: s). simpl. rewrite Hc. auto.
Qed.

Lemma takeDigits_app ds post :
  forallb isDigit ds = true -> notDigitFirst post = true ->
  takeDigits (ds ++ post) = ds.
Proof.
  induction ds as [|d ds IH]; simpl; intros Hd Hp.
  - destruct post as [|c post]; auto. simpl in Hp.
    apply negb_true_iff in Hp. simpl. now rewrite Hp.
  - apply andb_true_iff in Hd. destruct Hd as [Hd Hds].
    rewrite Hd. f_equal. auto.
Qed.

Lemma matchLegiarti_sound s : forall m,
  matchLegiarti s = Some m ->
  exists before digits after,
    s = before ++ m ++ after
    /\ m = lit "LEGIARTI" ++ digits
    /\ digits <> []
    /\ forallb isDigit digits = true
    /\ notDigitFirst after = true.
Proof.
  induction s as [|c s IH]; intros m H; [discriminate|].
  cbn [matchLegiarti] in H.
  assert (Hrec : matchLegiarti s = Some m ->
                 exists before digits after,
                   c :: s = before ++ m ++ after
                   /\ m = lit "LEGIARTI" ++ digits
                   /\ digits <> []
                   /\ forallb isDigit digits = true
                   /\ notDigitFirst after = true).
  { intros Hs. destruct (IH m Hs) as (b & ds & a & -> & Hm & Hne & Hd & Ha).
    exists (c :: b), ds, a. auto. }
  destruct (startsWith (c :: s) (lit "LEGIARTI")) eqn:Hst; [|auto].
  apply startsWith_spec in Hst. destruct Hst as (rest & Hrest).
  rewrite Hrest in H. change (skipn 8 (lit "LEGIARTI" ++ rest)) with rest in H.
  destruct (takeDigits rest) as [|d ds] eqn:Htd; [auto|].
  injection H as <-.
  destruct (takeDigits_spec rest) as (post & Hpost & Hdig & Hnd).
  rewrite Htd in Hpost, Hdig.
  exists [], (d :: ds), post. rewrite Hrest. repeat split; auto.
  - rewrite Hpost at 1. reflexivity.
  - discriminate.
Qed.

Lemma matchLegiarti_complete before : forall digits after,
  forallb (fun c => negb (c =? 76)%N) before = true ->
  digits <> [] -> forallb isDigit digits = true ->
  notDigitFirst after = true ->
  matchLegiarti (before ++ lit "LEGIARTI" ++ digits ++ after)
  = Some (lit "LEGIARTI" ++ digits).
Proof.
  induction before as [|c before IH]; intros digits after Hb Hne Hd Ha.
  - change ([] ++ lit "LEGIARTI" ++ digits ++ after)
      with (76%N :: (lit "EGIARTI" ++ digits ++ after)).
    cbn [matchLegiarti].
    change (76%N :: (lit "EGIARTI" ++ digits ++ after))
      with (lit "LEGIARTI" ++ digits ++ after).
    assert (Hst : startsWith (lit "LEGIARTI" ++ digits ++ after)
                             (lit "LEGIARTI") = true).
    { apply startsWith_spec. eauto. }
    rewrite Hst.
    change (skipn 8 (lit "LEGIARTI" ++ digits ++ after))
      with (digits ++ after).
    rewrite takeDigits_app by assumption.
    destruct digits; [congruence|reflexivity].
  - simpl in Hb. apply andb_true_iff in Hb. destruct Hb as [Hc Hb].
    change ((c :: before) ++ lit "LEGIARTI" ++ digits ++ after)
      with (c :: (before ++ lit "LEGIARTI" ++ digits ++ after)).
    cbn [matchLegiarti].
    assert (Hst : startsWith (c :: before ++ lit "LEGIARTI" ++ digits ++ after)
                             (lit "LEGIARTI") = false).
    { change (lit "LEGIARTI") with (76%N :: lit "EGIARTI").
      cbn [startsWith]. unfold char_eqb.
      apply negb_true_iff in Hc. now rewrite Hc. }
    rewrite Hst. auto.
Qed.

(** X15.  What [extractArticleId] returns is the empty string or an
    identifier that stands in the href: LEGIARTI followed by all the
    digits found there, at least one.  It is empty for a missing href and
    for an href without such an identifier. *)
Theorem X15_article_id_is_taken_from_the_href (href : option jsstring) :
  Proto.extractArticleId href = []
  \/ exists h before digits after,
       href = Some h
       /\ h = before ++ Proto.extractArticleId href ++ after
       /\ Proto.extractArticleId href = lit "LEGIARTI" ++ digits
       /\ digits <> []
       /\ forallb isDigit digits = true
       /\ notDigitFirst after = true.
Proof.
  destruct href as [[|c h]|]; [now left| |now left].
  unfold Proto.extractArticleId.
  destruct (matchLegiarti (c :: h)) as [m|] eqn:Hm; [|now left].
  right. destruct (matchLegiarti_sound _ Hm) as (b & ds & a & H).
  exists (c :: h), b, ds, a. tauto.
Qed.

(** X16.  An href that holds an identifier (LEGIARTI and digits, then no
    further digit) behind a prefix without the letter L, such as the
    address of an article on tricoteuses.fr, gives back that identifier;
    and [extractArticleId] applied to its own result gives that result. *)
Theorem X16_article_id_round_trip (before digits after : jsstring) :
  forallb (fun c => negb (c =? 76)%N) before = true ->
  digits <> [] -> forallb isDigit digits = true ->
  notDigitFirst after = true ->
  Proto.extractArticleId
    (Some (before ++ lit "LEGIARTI" ++ digits ++ after))
  = lit "LEGIARTI" ++ digits
  /\ Proto.extractArticleId (Some (lit "LEGIARTI" ++ digits))
     = lit "LEGIARTI" ++ digits.
Proof.
  intros Hb Hne Hd Ha.
  assert (H : forall pre post,
             forallb (fun c => negb (c =? 76)%N) pre = true ->
             notDigitFirst post = true ->
             Proto.extractArticleId
               (Some (pre ++ lit "LEGIARTI" ++ digits ++ post))
             = lit "LEGIARTI" ++ digits).
  { intros pre post Hpre Hpost. unfold Proto.extractArticleId.
    rewrite (@matchLegiarti_complete pre digits post Hpre Hne Hd Hpost).
    destruct pre; reflexivity. }
  split; [apply H; assumption|].
  specialize (H [] [] eq_refl eq_refl).
  rewrite app_nil_r in H. exact H.
Qed.

Lemma X16_article_id_round_trip_witness :
  forallb (fun c => negb (c =? 76)%N)
          (lit "https://tricoteuses.fr/legifrance/articles/") = true
  /\ lit "000051200465" <> []
  /\ forallb isDigit (lit "000051200465") = true
  /\ Proto.extractArticleId (Some MoreSamples.sampleHref)
     = lit "LEGIARTI000051200465".
Proof.
  assert (Hne : lit "000051200465" <> []) by discriminate.
  split; [reflexivity|]. split; [exact Hne|]. split; [reflexivity|].
  exact (proj1 (@X16_article_id_round_trip
                  (lit "https://tricoteuses.fr/legifrance/articles/")
                  (lit "000051200465") [] eq_refl Hne eq_refl eq_refl)).
Defined.

(** ** Parsing and applying a modification *)

(** X17.  [parseModification] gives a result only for a reference with its
    action, or for an action found where no reference parses; the target
    path is then the compiled path of the reference, present exactly when
    the reference is.  A text in which [reference] reads a reference
    without action gives null: [action] is not tried on it. *)
Theorem X17_parseModification_needs_an_action
  (reference_parser : jsstring -> option TextAstReference)
  (action_parser : jsstring -> option TextAstAction) (text : jsstring) :
  (forall m,
      Proto.parseModification reference_parser action_parser text = Some m ->
      Proto.targetPath m
      = option_map Proto.convertAstToNavigationPath (Proto.reference m)
      /\ ((exists target,
              reference_parser text
              = Some (ReferenceAndAction target (Proto.action m))
              /\ Proto.reference m = Some target)
          \/ (reference_parser text = None
              /\ action_parser text = Some (Proto.action m)
              /\ Proto.reference m = None)))
  /\ (forall r,
         reference_parser text = Some r ->
         (forall target act, r <> ReferenceAndAction target act) ->
         Proto.parseModification reference_parser action_parser text = None).
Proof.
  unfold Proto.parseModification. split.
  - intros m H. destruct (reference_parser text) as [r|].
    + destruct r; try discriminate. injection H as <-. simpl.
      split; auto. left. eauto.
    + destruct (action_parser text) as [a|]; [|discriminate].
      injection H as <-. simpl. split; auto.
  - intros r -> Hr. destruct r; auto. exfalso. eapply Hr. reflexivity.
Qed.

Lemma X17_parseModification_needs_an_action_witness :
  (fun _ : jsstring => Some itemII) (lit "Le II") = Some itemII
  /\ Proto.parseModification (fun _ => Some itemII)
       (fun _ => Some abrogation) (lit "Le II")
     = None.
Proof.
  split; [reflexivity|].
  refine (proj2 (X17_parseModification_needs_an_action
                   (fun _ => Some itemII) (fun _ => Some abrogation)
                   (lit "Le II")) itemII eq_refl _).
  intros target act H. discriminate H.
Defined.

Section ApplyProperties.

Variable reference_parser : jsstring -> option TextAstReference.
Variable action_parser : jsstring -> option TextAstAction.
Variable extractHTML : node -> jsstring.
Variable generateHtmlSplitDiff : jsstring -> jsstring -> jsstring.

(** X18.  Among the blocks of a project, [applyModificationAndGenerateDiff]
    gives a diff only for a block in which [reference] read a reference
    with its action and whose compiled path [locate] resolves in the
    article; the old HTML of the diff is that of the located element.  A
    block read as an action alone is refused for its missing target
    path, a block that did not parse for its missing AST. *)
Theorem X18_diff_needs_a_resolved_reference
  (dom article : node) (block : Proto.ModificationBlock) :
  In block (Proto.extractModificationsFromProject reference_parser
                                                  action_parser dom) ->
  (forall diff,
      Diff.applyModificationAndGenerateDiff extractHTML generateHtmlSplitDiff
                                            block article = Ok diff ->
      exists target act element newHTML,
        reference_parser (Proto.rawText block)
        = Some (ReferenceAndAction target act)
        /\ Proto.locate article (Proto.convertAstToNavigationPath target)
           = Ok element
        /\ diff = generateHtmlSplitDiff (extractHTML element) newHTML)
  /\ (reference_parser (Proto.rawText block) = None ->
      (forall act, action_parser (Proto.rawText block) = Some act ->
         Diff.applyModificationAndGenerateDiff
           extractHTML generateHtmlSplitDiff block article
         = Throw Diff.NoTargetPath)
      /\ (action_parser (Proto.rawText block) = None ->
          Diff.applyModificationAndGenerateDiff
            extractHTML generateHtmlSplitDiff block article
          = Throw Diff.NoAST)).
Proof.
  intros Hin.
  assert (Hast : Proto.ast block
                 = Proto.parseModification reference_parser action_parser
                                           (Proto.rawText block)).
  { unfold Proto.extractModificationsFromProject in Hin.
    eapply Proto_forEach_ast; eauto. }
  unfold Diff.applyModificationAndGenerateDiff. rewrite Hast.
  unfold Proto.parseModification. split.
  - intros diff H.
    destruct (reference_parser (Proto.rawText block)) as [r|].
    + destruct r as [| | | | |target act]; try discriminate.
      simpl in H.
      destruct (Proto.locate article (Proto.convertAstToNavigationPath target))
        as [element|e] eqn:Hloc; [|discriminate].
      injection H as <-. exists target, act, element. eauto.
    + destruct (action_parser (Proto.rawText block)); discriminate.
  - intros ->. split.
    + intros act ->. reflexivity.
    + intros ->. reflexivity.
Qed.

(** X19.  The new HTML of a diff never depends on what the citations
    say, only on whether there are any: two actions of the same kind that
    both have, or both lack, citations give the same result on the same
    target; and without citations every action but a suppression gives the
    diff of the old HTML with itself. *)
Theorem X19_citations_are_not_read
  (id articleId articleTitle rawText : jsstring)
  (target : option TextAstReference) (path : option Proto.NavigationPath)
  (act1 act2 : TextAstAction) (article : node) :
  Ast.action act1 = Ast.action act2 ->
  (Ast.originalCitations act1 = [] <-> Ast.originalCitations act2 = []) ->
  Diff.applyModificationAndGenerateDiff extractHTML generateHtmlSplitDiff
    (Proto.mkBlock id articleId articleTitle rawText
                   (Some (Proto.mkParsed act1 target path))) article
  = Diff.applyModificationAndGenerateDiff extractHTML generateHtmlSplitDiff
      (Proto.mkBlock id articleId articleTitle rawText
                     (Some (Proto.mkParsed act2 target path))) article
  /\ (Ast.originalCitations act1 = [] ->
      Ast.action act1 <> SUPPRESSION ->
      forall targetPath element,
        path = Some targetPath ->
        Proto.locate article targetPath = Ok element ->
        Diff.applyModificationAndGenerateDiff extractHTML
          generateHtmlSplitDiff
          (Proto.mkBlock id articleId articleTitle rawText
                         (Some (Proto.mkParsed act1 target path))) article
        = Ok (generateHtmlSplitDiff (extractHTML element)
                                    (extractHTML element))).
Proof.
  intros Hkind Hcit. unfold Diff.applyModificationAndGenerateDiff. simpl.
  split.
  - destruct path as [path|]; auto.
    destruct (Proto.locate article path); auto.
    rewrite Hkind.
    destruct (Ast.originalCitations act1) as [|c1 l1];
      destruct (Ast.originalCitations act2) as [|c2 l2]; auto.
    + destruct Hcit as [Hcit _]. discriminate (Hcit eq_refl).
    + destruct Hcit as [_ Hcit]. discriminate (Hcit eq_refl).
  - intros Hnil Hsup targetPath element -> Hloc. rewrite Hloc, Hnil. simpl.
    destruct (Ast.action act1); try congruence.
    now rewrite app_nil_r.
Qed.

End ApplyProperties.

Lemma X18_diff_needs_a_resolved_reference_witness :
  In (Proto.mkBlock (lit "mod-1") (lit "LEGIARTI000002") (lit "l'article 2")
        (lit "Texte etranger a la grammaire de l'article 2")
        (Some (Proto.mkParsed abrogation (Some MoreSamples.chapitreII)
                 (Some (Proto.convertAstToNavigationPath
                          MoreSamples.chapitreII)))))
     (Proto.extractModificationsFromProject
        (fun _ => Some (ReferenceAndAction MoreSamples.chapitreII abrogation))
        sampleAction project)
  /\ Diff.applyModificationAndGenerateDiff outerHTML (fun old new => new)
       (Proto.mkBlock (lit "mod-1") (lit "LEGIARTI000002") (lit "l'article 2")
          (lit "Texte etranger a la grammaire de l'article 2")
          (Some (Proto.mkParsed abrogation (Some MoreSamples.chapitreII)
                   (Some (Proto.convertAstToNavigationPath
                            MoreSamples.chapitreII)))))
       fourBlocks
     = Ok []
  /\ exists target act element newHTML,
       Some (ReferenceAndAction MoreSamples.chapitreII abrogation)
       = Some (ReferenceAndAction target act)
       /\ Proto.locate fourBlocks (Proto.convertAstToNavigationPath target)
          = Ok element
       /\ [] = (fun old new : jsstring => new) (outerHTML element) newHTML.
Proof.
  assert (Hin : In (Proto.mkBlock (lit "mod-1") (lit "LEGIARTI000002")
                      (lit "l'article 2")
                      (lit "Texte etranger a la grammaire de l'article 2")
                      (Some (Proto.mkParsed abrogation
                               (Some MoreSamples.chapitreII)
                               (Some (Proto.convertAstToNavigationPath
                                        MoreSamples.chapitreII)))))
                   (Proto.extractModificationsFromProject
                      (fun _ => Some (ReferenceAndAction MoreSamples.chapitreII
                                                         abrogation))
                      sampleAction project)).
  { right. left. reflexivity. }
  split; [exact Hin|]. split; [reflexivity|].
  exact (proj1 (@X18_diff_needs_a_resolved_reference
                  (fun _ => Some (ReferenceAndAction MoreSamples.chapitreII
                                                     abrogation))
                  sampleAction outerHTML (fun old new => new)
                  project fourBlocks _ Hin)
               [] eq_refl).
Defined.

Lemma X19_citations_are_not_read_witness :
  Ast.action (MoreSamples.remplacement [lit "un"])
  = Ast.action (MoreSamples.remplacement [lit "autre"; lit "texte"])
  /\ Diff.applyModificationAndGenerateDiff outerHTML (fun old new => new)
       (MoreSamples.blockOf (MoreSamples.remplacement [lit "un"])
                            MoreSamples.chapitreII) fourBlocks
     = Diff.applyModificationAndGenerateDiff outerHTML (fun old new => new)
         (MoreSamples.blockOf
            (MoreSamples.remplacement [lit "autre"; lit "texte"])
            MoreSamples.chapitreII) fourBlocks.
Proof.
  split; [reflexivity|].
  refine (proj1 (@X19_citations_are_not_read outerHTML (fun old new => new)
                   (lit "mod-0") [] [] [] (Some MoreSamples.chapitreII)
                   (Some (Proto.convertAstToNavigationPath
                            MoreSamples.chapitreII))
                   (MoreSamples.remplacement [lit "un"])
                   (MoreSamples.remplacement [lit "autre"; lit "texte"])
                   fourBlocks eq_refl _)).
  split; intros H; discriminate H.
Defined.

(** ** Article numbers *)

Lemma find_app_first {A} (f : A -> bool) l1 l2 :
  find f (l1 ++ l2)
  = match find f l1 with
    | Some x => Some x
    | None => find f l2
    end.
Proof.
  induction l1 as [|a l1 IH]; simpl; auto. destruct (f a); auto.
Qed.

Lemma isNumberedArticle_num step :
  isNumberedArticle step = true ->
  exists c n, Nav1.num step = Some (c :: n).
Proof.
  unfold isNumberedArticle.
  destruct (Nav1.type step); try discriminate.
  destruct (Nav1.num step) as [[|c n]|]; try discriminate. eauto.
Qed.

Lemma Etapes_articleNum_of_path ref : forall path,
  Nav1.walkReference ref [] = Ok path ->
  Etapes.extractArticleNumFromAST ref
  = match find isNumberedArticle path with
    | Some step => match Nav1.num step with Some n => n | None => [] end
    | None => []
    end.
Proof.
  induction ref as [t f|parent IHp child IHc|a _ b _|a _ b _|a _ c|a _ act];
    intros path H; try discriminate.
  - cbn [Nav1.walkReference] in H.
    destruct (Nav1.referenceToStep (Atomic t f)) as [step|e] eqn:Hs;
      [|discriminate].
    injection H as <-. destruct (Ast.num f) as [[|c n]|] eqn:Hn;
      destruct t; simpl in Hs; try discriminate; injection Hs as <-;
      simpl; unfold isNumberedArticle; simpl; rewrite ?Hn; reflexivity.
  - simpl in H. rewrite Nav1_walkReference_accumulates in H.
    destruct (Nav1.walkReference parent []) as [pp|e] eqn:Hp;
      [|discriminate].
    simpl in H. rewrite Nav1_walkReference_accumulates in H.
    destruct (Nav1.walkReference child []) as [pc|e] eqn:Hc;
      [|discriminate].
    injection H as <-. simpl.
    rewrite (IHp pp eq_refl), (IHc pc eq_refl), find_app_first.
    destruct (find isNumberedArticle pp) as [step|] eqn:Hf; auto.
    apply find_some in Hf. destruct Hf as [_ Hf].
    apply isNumberedArticle_num in Hf. destruct Hf as (c & n & ->).
    reflexivity.
Qed.

(** X20.  For a reference that the first navigator compiles, the article
    number [extractArticleNumFromAST] reads is the number of the first
    article step of the compiled path that has one, and the empty string
    when the path has no such step. *)
Theorem X20_article_number_is_the_first_article_step
  (ref : TextAstReference) (path : list Nav1.NavigationStep) :
  Nav1.extractNavigationPath ref = Ok path ->
  Etapes.extractArticleNumFromAST ref
  = match find isNumberedArticle path with
    | Some step => match Nav1.num step with Some n => n | None => [] end
    | None => []
    end.
Proof.
  apply Etapes_articleNum_of_path.
Qed.

Lemma X20_article_number_is_the_first_article_step_witness :
  Nav1.extractNavigationPath MoreSamples.fullReference
  = Ok [ Nav1.mkStep Nav1.St_texte (Some (lit "CGI")) None None None None;
         Nav1.mkStep Nav1.St_article None (Some (lit "224")) None None None;
         stepII; stepDernierAlinea ]
  /\ Etapes.extractArticleNumFromAST MoreSamples.fullReference = lit "224".
Proof.
  split; [reflexivity|].
  exact (@X20_article_number_is_the_first_article_step
           MoreSamples.fullReference _ eq_refl).
Defined.

(** ** The extractor of prochaines-etapes.md *)

Lemma Etapes_each_from_nth reference_parser items : forall n i li,
  nth_error items i = Some li ->
  nth_error (Etapes.each_from reference_parser n items) i
  = Some (Etapes.extractItem reference_parser (n + i) li).
Proof.
  induction items as [|x items IH]; intros n i li H.
  - destruct i; discriminate.
  - destruct i as [|i]; simpl in *.
    + injection H as ->. now rewrite Nat.add_0_r.
    + rewrite (IH (S n) i li H). do 2 f_equal. lia.
Qed.

Lemma Etapes_each_from_length reference_parser items : forall n,
  List.length (Etapes.each_from reference_parser n items) = List.length items.
Proof.
  induction items as [|li items IH]; intros n; simpl; auto.
Qed.

(** X21.  The extractor of prochaines-etapes.md returns one record per
    block, in order, also for a block that does not parse or has no link.
    The raw text of a record is the text of its block without the white
    space around it, and it is this text that [reference] reads; the
    article number is empty when nothing parses, and is read under the
    action when the result is a reference with its action. *)
Theorem X21_etapes_records
  (reference_parser : jsstring -> option TextAstReference) (root : node) :
  List.length (Etapes.extractModificationsFromProject reference_parser root)
  = List.length (descendants Etapes.isModificationItem root)
  /\ forall i li,
       nth_error (descendants Etapes.isModificationItem root) i = Some li ->
       exists b,
         nth_error
           (Etapes.extractModificationsFromProject reference_parser root) i
         = Some b
         /\ Etapes.id b = lit "mod-" ++ String_of_nat i
         /\ Etapes.rawText b = trim (textContent li)
         /\ Etapes.ast b = reference_parser (trim (textContent li))
         /\ (Etapes.ast b = None -> Etapes.articleNum b = [])
         /\ (forall target act,
                Etapes.ast b = Some (ReferenceAndAction target act) ->
                Etapes.articleNum b
                = Etapes.extractArticleNumFromAST target).
Proof.
  split.
  - apply Etapes_each_from_length.
  - intros i li H. eexists. split.
    + unfold Etapes.extractModificationsFromProject.
      rewrite (Etapes_each_from_nth reference_parser _ 0 i H). reflexivity.
    + simpl. repeat split; auto.
      * intros ->. reflexivity.
      * intros target act ->. reflexivity.
Qed.

Lemma X21_etapes_records_witness :
  nth_error (descendants Etapes.isModificationItem project) 2
  = Some (modificationItem [ TextNode (lit "Le II est abroge.") ])
  /\ exists b,
       nth_error (Etapes.extractModificationsFromProject sampleReference
                                                         project) 2
       = Some b
       /\ Etapes.id b = lit "mod-" ++ String_of_nat 2
       /\ Etapes.rawText b
          = trim (textContent
                    (modificationItem [ TextNode (lit "Le II est abroge.") ]))
       /\ Etapes.ast b
          = sampleReference
              (trim (textContent
                       (modificationItem
                          [ TextNode (lit "Le II est abroge.") ])))
       /\ (Etapes.ast b = None -> Etapes.articleNum b = [])
       /\ (forall target act,
              Etapes.ast b = Some (ReferenceAndAction target act) ->
              Etapes.articleNum b = Etapes.extractArticleNumFromAST target).
Proof.
  split; [reflexivity|].
  exact (proj2 (X21_etapes_records sampleReference project) 2 _ eq_refl).
Defined.
